(** * Safety monitoring dashboard: a shallow embedding of the React client

    The development follows the frontend components
    [Dashboard.jsx], [CameraCard.jsx], [AudioCard.jsx] and [LogTable.jsx],
    and models the event queue and the event store of the backend from the
    design document.  JavaScript values are embedded as an inductive type
    whose numbers are IEEE-754 binary64 floats, objects are finite maps from
    property names to values, and a [TypeError] is an explicit outcome. *)

From Stdlib Require Import ZArith Floats Ascii.
From stdpp Require Import gmap strings list.

Local Open Scope string_scope.

(** ** JavaScript values *)

Module JS.

#[warnings="-register-all"] Inductive value : Type :=
| VUndefined
| VNull
| VBool (b : bool)
| VNum (x : float)
| VStr (s : string)
| VArr (l : list value)
| VObj (o : gmap string value).

(** An object literal [{k1: v1, ..., kn: vn}] with distinct keys. *)
Definition obj (fields : list (string * value)) : value :=
  VObj (list_to_map fields).

(** The outcome of evaluating an expression or a function body: a value,
    or a thrown [TypeError]. *)
Inductive completion (A : Type) : Type :=
| Normal (a : A)
| TypeError.
Arguments Normal {A} a.
Arguments TypeError {A}.

Definition bind {A B : Type} (c : completion A) (k : A -> completion B)
  : completion B :=
  match c with
  | Normal a => k a
  | TypeError => TypeError
  end.

(** ToBoolean: [undefined], [null], [false], [+0], [-0], [NaN] and the
    empty string are falsy; every object and array is truthy. *)
Definition truthy (v : value) : bool :=
  match v with
  | VUndefined | VNull => false
  | VBool b => b
  | VNum x => negb (PrimFloat.eqb x 0%float || PrimFloat.is_nan x)
  | VStr s => negb (String.eqb s "")
  | VArr _ | VObj _ => true
  end.

(** [a || b] on already evaluated operands (the right operands in the
    components are literals, so evaluating them has no effect). *)
Definition or (a b : value) : value := if truthy a then a else b.

(** [v === 'lit'] for a string literal. *)
Definition strict_eq_str (v : value) (lit : string) : bool :=
  match v with
  | VStr s => String.eqb s lit
  | _ => false
  end.

(** Property read [v.k] for the property names the components read
    ([type], [source], [people_count], ...).  None of them is defined on
    the prototypes of booleans, numbers, strings or arrays, so the read
    gives [undefined] there; on [undefined] and [null] it throws. *)
Definition get (v : value) (k : string) : completion value :=
  match v with
  | VUndefined | VNull => TypeError
  | VObj o => Normal (default VUndefined (o !! k))
  | VBool _ | VNum _ | VStr _ | VArr _ => Normal VUndefined
  end.

(** *** Numbers *)

Definition nan : float := PrimFloat.div 0%float 0%float.

(** The float of an integer below [2^53] in absolute value. *)
Definition float_of_Z (n : Z) : float :=
  let a := PrimFloat.of_uint63 (Uint63.of_Z (Z.abs n)) in
  if (n <? 0)%Z then PrimFloat.opp a else a.

(** [Math.round(x)]: the integer nearest to [x], ties towards [+∞];
    [NaN], the infinities, the zeros and integral values are returned as
    they are, and a result that rounds a negative [x] to zero is [-0]. *)
Definition Math_round (x : float) : float :=
  match Prim2SF x with
  | S754_finite s m e =>
      if (0 <=? e)%Z then x
      else
        let half := Z.shiftl 1 (- e - 1) in
        let mant := if s then Z.neg m else Z.pos m in
        let n := ((mant + half) / (2 * half))%Z in
        if (n =? 0)%Z then (if s then PrimFloat.opp 0%float else 0%float)
        else float_of_Z n
  | _ => x
  end.

Section Coercions.

(** The text-to-number and array-to-text conversions of the language are
    taken as given; the text of an array is the join of the texts of its
    elements, which throws when an element has none. *)
Variable StringToNumber : string -> float.
Variable ArrayToString : list value -> completion string.

(** ToNumber.  A parsed JSON object carries no callable property, so its
    conversion goes through [Object.prototype.toString] and gives [NaN],
    unless an own [toString] property shadows that method, in which case
    no conversion exists and a [TypeError] is thrown. *)
Definition ToNumber (v : value) : completion float :=
  match v with
  | VUndefined => Normal nan
  | VNull => Normal 0%float
  | VBool b => Normal (if b then 1%float else 0%float)
  | VNum x => Normal x
  | VStr s => Normal (StringToNumber s)
  | VArr l => match ArrayToString l with
              | Normal s => Normal (StringToNumber s)
              | TypeError => TypeError
              end
  | VObj o => if bool_decide (is_Some (o !! "toString")) then TypeError
              else Normal nan
  end.

End Coercions.

(** *** [Math.min], text and comparison *)

(** One step of [Math.min] over its arguments: [-0] replaces a lowest of
    [+0], and a smaller number replaces the lowest. *)
Definition min_step (lowest n : float) : float :=
  if (PrimFloat.is_zero n && PrimFloat.get_sign n
      && PrimFloat.is_zero lowest && negb (PrimFloat.get_sign lowest))%bool
  then n
  else if PrimFloat.ltb n lowest then n else lowest.

(** [Math.min(a, b)]: [NaN] when an argument is [NaN], otherwise the fold
    of [min_step] from [+∞]. *)
Definition Math_min (a b : float) : float :=
  if (PrimFloat.is_nan a || PrimFloat.is_nan b)%bool then nan
  else min_step (min_step PrimFloat.infinity a) b.

(** The value of [v && <element>] as a child of an element: the falsy [v]
    itself, or the element, given by its text. *)
Inductive child : Type :=
| Leftover (v : value)
| Element (text : string).

Section Conversions.

Variable StringToNumber : string -> float.
Variable NumberToString : float -> string.
Variable ArrayToString : list value -> completion string.
(** The order of strings by code units. *)
Variable string_lt : string -> string -> bool.

(** ToPrimitive of a parsed JSON value: an array gives its text, an object
    the text of [Object.prototype.toString] unless an own [toString]
    shadows it. *)
Definition ToPrimitive (v : value) : completion value :=
  match v with
  | VArr l => match ArrayToString l with
              | Normal s => Normal (VStr s)
              | TypeError => TypeError
              end
  | VObj o => if bool_decide (is_Some (o !! "toString")) then TypeError
              else Normal (VStr "[object Object]")
  | _ => Normal v
  end.

(** ToString, as a template literal applies it. *)
Definition ToString (v : value) : completion string :=
  match v with
  | VUndefined => Normal "undefined"
  | VNull => Normal "null"
  | VBool b => Normal (if b then "true" else "false")
  | VNum x => Normal (NumberToString x)
  | VStr s => Normal s
  | VArr l => ArrayToString l
  | VObj o => if bool_decide (is_Some (o !! "toString")) then TypeError
              else Normal "[object Object]"
  end.

(** [a >= b]: two strings are compared as strings, anything else as
    numbers, and a comparison with [NaN] is false. *)
Definition ge (a b : value) : completion bool :=
  match ToPrimitive a with
  | TypeError => TypeError
  | Normal pa =>
      match ToPrimitive b with
      | TypeError => TypeError
      | Normal pb =>
          match pa, pb with
          | VStr x, VStr y => Normal (negb (string_lt x y))
          | _, _ =>
              match ToNumber StringToNumber ArrayToString pa with
              | TypeError => TypeError
              | Normal na =>
                  match ToNumber StringToNumber ArrayToString pb with
                  | TypeError => TypeError
                  | Normal nb => Normal (PrimFloat.leb nb na)
                  end
              end
          end
      end
  end.

End Conversions.

End JS.

Import JS.

#[global] Instance completion_bind : MBind completion :=
  fun A B k c => JS.bind c k.

(** ** Dashboard.jsx *)

Module Dashboard.

(** One element of the [logs] state. *)
Record log_entry : Type := mkLog {
  log_id : Z;              (* Date.now() *)
  log_timestamp : value;   (* message.timestamp *)
  log_source : value;      (* message.source *)
  log_type : value;        (* message.type *)
  log_data : value         (* message *)
}.

(** The [data] state: one card object per source. *)
Record card_data : Type := mkData {
  cam0 : value;
  cam10 : value;
  audio : value
}.

(** The React state of the component: [connected], [data], [logs]. *)
Record state : Type := mkState {
  connected : bool;
  data : card_data;
  logs : list log_entry
}.

Definition initial_data : card_data :=
  {| cam0 := obj [("people_count", VNum 0%float); ("accident_detected", VBool false);
                  ("fps", VNum 0%float)];
     cam10 := obj [("ppe_compliant", VNum 0%float); ("ppe_non_compliant", VNum 0%float);
                   ("total_detected", VNum 0%float); ("fps", VNum 0%float)];
     audio := obj [("noise_level", VNum 0%float); ("alert", VBool false)] |}.

Definition initial_state : state :=
  {| connected := false; data := initial_data; logs := [] |}.

(** [setData(prev => ({...prev, cam0: c}))] and its siblings. *)
Definition set_cam0 (c : value) (prev : card_data) : card_data :=
  {| cam0 := c; cam10 := cam10 prev; audio := audio prev |}.
Definition set_cam10 (c : value) (prev : card_data) : card_data :=
  {| cam0 := cam0 prev; cam10 := c; audio := audio prev |}.
Definition set_audio (c : value) (prev : card_data) : card_data :=
  {| cam0 := cam0 prev; cam10 := cam10 prev; audio := c |}.

Definition is_control_type (ty : value) : bool :=
  strict_eq_str ty "connection" || strict_eq_str ty "pong"
  || strict_eq_str ty "keepalive".

(** The card object built in each branch of [handleMessage]. *)
Definition cam0_card (message : value) : completion value :=
  people_count ← get message "people_count";
  accident_detected ← get message "accident_detected";
  accident_type ← get message "accident_type";
  fps ← get message "fps";
  Normal (obj [("people_count", or people_count (VNum 0%float));
               ("accident_detected", or accident_detected (VBool false));
               ("accident_type", accident_type);
               ("fps", or fps (VNum 0%float))]).

Definition cam10_card (message : value) : completion value :=
  ppe_compliant ← get message "ppe_compliant";
  ppe_non_compliant ← get message "ppe_non_compliant";
  total_detected ← get message "total_detected";
  missing_items ← get message "missing_items";
  fps ← get message "fps";
  Normal (obj [("ppe_compliant", or ppe_compliant (VNum 0%float));
               ("ppe_non_compliant", or ppe_non_compliant (VNum 0%float));
               ("total_detected", or total_detected (VNum 0%float));
               ("missing_items", or missing_items (VArr []));
               ("fps", or fps (VNum 0%float))]).

Definition audio_card (message : value) : completion value :=
  noise_level ← get message "noise_level";
  threshold ← get message "threshold";
  alert ← get message "alert";
  Normal (obj [("noise_level", or noise_level (VNum 0%float));
               ("threshold", or threshold (VNum 85%float));
               ("alert", or alert (VBool false))]).

(** The updater passed to [setLogs]: prepend, then [slice(0, 50)]. *)
Definition add_log (entry : log_entry) (prev : list log_entry)
  : list log_entry :=
  let newLogs := entry :: prev in
  take 50 newLogs.

(** [handleMessage(message)]; [now] is the reading of [Date.now()]. *)
Definition handleMessage (now : Z) (message : value) (st : state)
  : completion state :=
  ty ← get message "type";
  if is_control_type ty then Normal st
  else
    source ← get message "source";
    data' ←
      (if strict_eq_str source "cam0" then
         c ← cam0_card message; Normal (set_cam0 c (data st))
       else if strict_eq_str source "cam10" then
         c ← cam10_card message; Normal (set_cam10 c (data st))
       else if strict_eq_str source "audio" then
         c ← audio_card message; Normal (set_audio c (data st))
       else Normal (data st));
    timestamp ← get message "timestamp";
    let entry := {| log_id := now; log_timestamp := timestamp;
                    log_source := source; log_type := ty;
                    log_data := message |} in
    Normal {| connected := connected st; data := data';
              logs := add_log entry (logs st) |}.

(** [handleMessage] inside the [try]/[catch] of [ws.onmessage]: a thrown
    error is logged and the state is left as it was. *)
Definition onmessage (now : Z) (message : value) (st : state) : state :=
  match handleMessage now message st with
  | Normal st' => st'
  | TypeError => st
  end.

(** A run of the client over the parsed messages it receives, each with
    the clock reading at the time it is handled. *)
Definition run (msgs : list (Z * value)) (st : state) : state :=
  foldl (fun s m => onmessage m.1 m.2 s) st msgs.

(** *** The WebSocket connection, its timers and the two effects

    The browser side of the component is explicit state: every
    [WebSocket] constructed so far with its [readyState], the pending
    [setTimeout] timers, the active [setInterval] timers and the frames
    handed to [send]. *)

Inductive readyState : Type := CONNECTING | OPEN | CLOSING | CLOSED.

#[global] Instance readyState_eq_dec : EqDecision readyState.
Proof. solve_decision. Defined.

(** The two closures the component hands to the timer functions. *)
Inductive callback : Type :=
| Reconnect    (* () => { console.log(...); connectWebSocket() } *)
| SendPing.    (* the body of the keep-alive interval *)

Record timer : Type := mkTimer {
  timer_callback : callback;
  timer_delay : Z          (* milliseconds *)
}.

Record client : Type := mkClient {
  ui : state;
  wsRef : option nat;
  reconnectTimeoutRef : option nat;
  pingInterval : option nat;     (* [interval] of the second effect *)
  sockets : list readyState;     (* a socket is named by its position *)
  timeouts : gmap nat timer;
  intervals : gmap nat timer;
  next_timer : nat;
  sent : list (nat * string)     (* oldest first *)
}.

Definition initial_client : client :=
  {| ui := initial_state; wsRef := None; reconnectTimeoutRef := None;
     pingInterval := None; sockets := []; timeouts := ∅; intervals := ∅;
     next_timer := 1; sent := [] |}.

Definition set_ui (f : state -> state) (c : client) : client :=
  {| ui := f (ui c); wsRef := wsRef c;
     reconnectTimeoutRef := reconnectTimeoutRef c;
     pingInterval := pingInterval c; sockets := sockets c;
     timeouts := timeouts c; intervals := intervals c;
     next_timer := next_timer c; sent := sent c |}.

Definition setConnected (b : bool) (st : state) : state :=
  {| connected := b; data := data st; logs := logs st |}.

(** [connectWebSocket()]: [new WebSocket(url)] and [wsRef.current = ws];
    the handlers attached to [ws] are [onopen], [ws_onmessage] and
    [onclose] below. *)
Definition connectWebSocket (c : client) : client :=
  let ws := length (sockets c) in
  {| ui := ui c; wsRef := Some ws;
     reconnectTimeoutRef := reconnectTimeoutRef c;
     pingInterval := pingInterval c;
     sockets := sockets c ++ [CONNECTING];
     timeouts := timeouts c; intervals := intervals c;
     next_timer := next_timer c; sent := sent c |}.

Definition onopen (c : client) : client := set_ui (setConnected true) c.

(** [ws.onmessage]: [parsed] is the result of [JSON.parse(event.data)],
    [None] when it threw, which the [catch] logs. *)
Definition ws_onmessage (now : Z) (parsed : option value) (c : client)
  : client :=
  match parsed with
  | Some message => set_ui (onmessage now message) c
  | None => c
  end.

(** [ws.onclose]: [setConnected(false)], then
    [reconnectTimeoutRef.current = setTimeout(..., 3000)]. *)
Definition onclose (c : client) : client :=
  let id := next_timer c in
  {| ui := setConnected false (ui c); wsRef := wsRef c;
     reconnectTimeoutRef := Some id;
     pingInterval := pingInterval c; sockets := sockets c;
     timeouts := <[id := mkTimer Reconnect 3000]> (timeouts c);
     intervals := intervals c;
     next_timer := S id; sent := sent c |}.

(** The interval body:
    [if (wsRef.current && wsRef.current.readyState === WebSocket.OPEN)
       wsRef.current.send('ping')]. *)
Definition sendPing (c : client) : client :=
  match wsRef c with
  | Some ws =>
      if bool_decide (sockets c !! ws = Some OPEN) then
        {| ui := ui c; wsRef := wsRef c;
           reconnectTimeoutRef := reconnectTimeoutRef c;
           pingInterval := pingInterval c; sockets := sockets c;
           timeouts := timeouts c; intervals := intervals c;
           next_timer := next_timer c;
           sent := sent c ++ [(ws, "ping")] |}
      else c
  | None => c
  end.

Definition run_callback (cb : callback) (c : client) : client :=
  match cb with
  | Reconnect => connectWebSocket c
  | SendPing => sendPing c
  end.

(** The second effect: [setInterval(..., 20000)]. *)
Definition start_ping (c : client) : client :=
  let id := next_timer c in
  {| ui := ui c; wsRef := wsRef c;
     reconnectTimeoutRef := reconnectTimeoutRef c;
     pingInterval := Some id; sockets := sockets c;
     timeouts := timeouts c;
     intervals := <[id := mkTimer SendPing 20000]> (intervals c);
     next_timer := S id; sent := sent c |}.

Definition mount (c : client) : client := start_ping (connectWebSocket c).

(** [ws.close()] starts the closing handshake of a socket that is not
    closed yet. *)
Definition close_socket (rs : readyState) : readyState :=
  match rs with
  | CONNECTING | OPEN => CLOSING
  | CLOSING | CLOSED => rs
  end.

(** The cleanups of the two effects. *)
Definition unmount (c : client) : client :=
  {| ui := ui c; wsRef := wsRef c;
     reconnectTimeoutRef := reconnectTimeoutRef c;
     pingInterval := pingInterval c;
     sockets := match wsRef c with
                | Some ws => alter close_socket ws (sockets c)
                | None => sockets c
                end;
     timeouts := match reconnectTimeoutRef c with
                 | Some id => delete id (timeouts c)
                 | None => timeouts c
                 end;
     intervals := match pingInterval c with
                  | Some id => delete id (intervals c)
                  | None => intervals c
                  end;
     next_timer := next_timer c; sent := sent c |}.

Definition set_readyState (ws : nat) (rs : readyState) (c : client)
  : client :=
  {| ui := ui c; wsRef := wsRef c;
     reconnectTimeoutRef := reconnectTimeoutRef c;
     pingInterval := pingInterval c;
     sockets := <[ws := rs]> (sockets c);
     timeouts := timeouts c; intervals := intervals c;
     next_timer := next_timer c; sent := sent c |}.

Definition clear_timeout (id : nat) (c : client) : client :=
  {| ui := ui c; wsRef := wsRef c;
     reconnectTimeoutRef := reconnectTimeoutRef c;
     pingInterval := pingInterval c; sockets := sockets c;
     timeouts := delete id (timeouts c); intervals := intervals c;
     next_timer := next_timer c; sent := sent c |}.

(** What the browser and React deliver to the component. *)
Inductive event : Type :=
| Mount
| Unmount
| SocketOpen (ws : nat)
| SocketMessage (ws : nat) (now : Z) (parsed : option value)
| SocketClosing (ws : nat)
| SocketClose (ws : nat)
| TimeoutFires (id : nat)
| IntervalFires (id : nat).

(** One event: the browser updates the socket or timer concerned and
    runs the handler the component registered for it.  An event for a
    socket that cannot raise it, or for a timer that is not pending, does
    nothing.  [SocketClosing] is the closing handshake started by the
    server: the readyState of an open socket becomes CLOSING in a task of
    its own, for which the component has no handler, before the close
    event is delivered. *)
Definition step (e : event) (c : client) : client :=
  match e with
  | Mount => mount c
  | Unmount => unmount c
  | SocketOpen ws =>
      if bool_decide (sockets c !! ws = Some CONNECTING)
      then onopen (set_readyState ws OPEN c) else c
  | SocketMessage ws now parsed =>
      if bool_decide (sockets c !! ws = Some OPEN)
      then ws_onmessage now parsed c else c
  | SocketClosing ws =>
      if bool_decide (sockets c !! ws = Some OPEN)
      then set_readyState ws CLOSING c else c
  | SocketClose ws =>
      match sockets c !! ws with
      | Some CLOSED | None => c
      | Some _ => onclose (set_readyState ws CLOSED c)
      end
  | TimeoutFires id =>
      match timeouts c !! id with
      | Some t => run_callback (timer_callback t) (clear_timeout id c)
      | None => c
      end
  | IntervalFires id =>
      match intervals c !! id with
      | Some t => run_callback (timer_callback t) c
      | None => c
      end
  end.

Definition run_events (es : list event) (c : client) : client :=
  foldl (fun c e => step e c) c es.

(** What the component returns: the connecting notice while [connected]
    is false, otherwise the three cards and the log table with the props
    they are given. *)
Inductive view : Type :=
| Connecting
| Panel (cam0_data cam10_data audio_data : value) (table_logs : list log_entry).

Definition render (st : state) : view :=
  if negb (connected st) then Connecting
  else Panel (cam0 (data st)) (cam10 (data st)) (audio (data st)) (logs st).

End Dashboard.

(** ** CameraCard.jsx *)

Module CameraCard.

Section Rate.

Variable StringToNumber : string -> float.
Variable ArrayToString : list value -> completion string.

(** The division operator is a parameter of the definition, so that the
    operands it is applied to can be observed; the component is
    [complianceRate PrimFloat.div]. *)
Variable div : float -> float -> float.

Let ToNumber := JS.ToNumber StringToNumber ArrayToString.

(** [complianceRate] in the PPE branch of the card:
    [total > 0 ? Math.round((compliant / total) * 100) : 0]. *)
Definition complianceRate (data : value) : completion float :=
  total_detected ← get data "total_detected";
  let total := or total_detected (VNum 0%float) in
  ppe_compliant ← get data "ppe_compliant";
  let compliant := or ppe_compliant (VNum 0%float) in
  ppe_non_compliant ← get data "ppe_non_compliant";
  let nonCompliant := or ppe_non_compliant (VNum 0%float) in
  t ← ToNumber total;
  if PrimFloat.ltb 0%float t then
    c ← ToNumber compliant;
    t' ← ToNumber total;
    Normal (Math_round (PrimFloat.mul (div c t') 100%float))
  else Normal 0%float.

End Rate.

Section Labels.

Variable StringToNumber : string -> float.
Variable ArrayToString : list value -> completion string.
Variable Number_toFixed : float -> nat -> string.
(** [Array.prototype.join] with a separator. *)
Variable Array_join : list value -> string -> completion string.

(** [v?.toFixed(1)]: [undefined] for a nullish [v]; otherwise the method
    is called, and only numbers have it. *)
Definition optional_toFixed1 (v : value) : completion value :=
  match v with
  | VUndefined | VNull => Normal VUndefined
  | VNum x => Normal (VStr (Number_toFixed x 1))
  | VBool _ | VStr _ | VArr _ | VObj _ => TypeError
  end.

(** The text after [FPS:] in both cards:
    [data.fps?.toFixed(1) || '0.0']. *)
Definition fpsLabel (data : value) : completion value :=
  fps ← get data "fps";
  text ← optional_toFixed1 fps;
  Normal (or text (VStr "0.0")).

(** [s.replace(/_/g, ' ')] on a string. *)
Fixpoint replace_underscores (s : string) : string :=
  match s with
  | EmptyString => EmptyString
  | String c rest =>
      String (if Ascii.eqb c "_"%char then " "%char else c)
             (replace_underscores rest)
  end.

(** [v.replace(/_/g, ' ')]: only strings have the method. *)
Definition replace_call (v : value) : completion string :=
  match v with
  | VStr s => Normal (replace_underscores s)
  | _ => TypeError
  end.

(** The accident box of the regular card: absent unless
    [accidentDetected]; inside it, the line with the accident type is
    [data.accident_type && ...]. *)
Definition accidentTypeLine (data : value) : completion (option child) :=
  people_count ← get data "people_count";
  accident_detected ← get data "accident_detected";
  let accidentDetected := or accident_detected (VBool false) in
  if truthy accidentDetected then
    accident_type ← get data "accident_type";
    if truthy accident_type then
      text ← replace_call accident_type;
      Normal (Some (Element text))
    else Normal (Some (Leftover accident_type))
  else Normal None.

(** [v.length > 0] for a truthy [v]. *)
Definition length_positive (v : value) : completion bool :=
  match v with
  | VArr l => Normal (bool_decide (l <> []))
  | VStr s => Normal (bool_decide (s <> ""))
  | VObj o =>
      n ← ToNumber StringToNumber ArrayToString
            (default VUndefined (o !! "length"));
      Normal (PrimFloat.ltb 0%float n)
  | _ => Normal false
  end.

(** [v.join(', ')]: only arrays have the method. *)
Definition join_call (v : value) : completion string :=
  match v with
  | VArr l => Array_join l ", "
  | _ => TypeError
  end.

(** The line of missing items of the PPE card:
    [data.missing_items && data.missing_items.length > 0 && ...]. *)
Definition missingLine (data : value) : completion child :=
  missing_items ← get data "missing_items";
  if truthy missing_items then
    nonempty ← length_positive missing_items;
    if (nonempty : bool) then
      text ← join_call missing_items;
      Normal (Element text)
    else Normal (Leftover (VBool false))
  else Normal (Leftover missing_items).

End Labels.

End CameraCard.

(** ** AudioCard.jsx *)

Module AudioCard.

(** The three values the card reads from its [data] prop. *)
Record reading : Type := mkReading {
  noiseLevel : value;
  threshold : value;
  alert : value
}.

Definition read (data : value) : completion reading :=
  noise_level ← get data "noise_level";
  thr ← get data "threshold";
  al ← get data "alert";
  Normal {| noiseLevel := or noise_level (VNum 0%float);
            threshold := or thr (VNum 85%float);
            alert := or al (VBool false) |}.

Section Render.

Variable StringToNumber : string -> float.
Variable NumberToString : float -> string.
Variable ArrayToString : list value -> completion string.
Variable string_lt : string -> string -> bool.
Variable Number_toFixed : float -> nat -> string.

Let ToNumber := JS.ToNumber StringToNumber ArrayToString.
Let ToString := JS.ToString NumberToString ArrayToString.
Let ge := JS.ge StringToNumber ArrayToString string_lt.

(** [Math.min((noiseLevel / 120) * 100, 100)]. *)
Definition percentage (r : reading) : completion float :=
  n ← ToNumber (noiseLevel r);
  Normal (Math_min (PrimFloat.mul (PrimFloat.div n 120%float) 100%float)
                   100%float).

(** The class of the bar: [danger] at or above the threshold, [warning] at
    or above 0.8 of it. *)
Definition progressClass (r : reading) : completion string :=
  above ← ge (noiseLevel r) (threshold r);
  if (above : bool) then Normal "danger"
  else
    t ← ToNumber (threshold r);
    near ← ge (noiseLevel r)
              (VNum (PrimFloat.mul t 0x1.999999999999ap-1%float));
    if (near : bool) then Normal "warning" else Normal "".

(** [v.toFixed(1)]: only numbers have the method. *)
Definition toFixed1 (v : value) : completion string :=
  match v with
  | VNum x => Normal (Number_toFixed x 1)
  | _ => TypeError
  end.

(** What the card shows. *)
Record card : Type := mkCard {
  cardAlert : bool;            (* the class [alert] on the card *)
  statValue : string;          (* before [dB] in the headline *)
  thresholdLabel : child;      (* [threshold && ` (Threshold: ... dB)`] *)
  fillClass : string;
  fillWidth : string;          (* [`${percentage}%`] *)
  banner : bool;               (* the box [NOISE THRESHOLD EXCEEDED!] *)
  thresholdTick : value        (* the middle tick of the scale *)
}.

Definition render (data : value) : completion card :=
  r ← read data;
  pct ← percentage r;
  cls ← progressClass r;
  headline ← toFixed1 (noiseLevel r);
  label ← (if truthy (threshold r) then
             t ← ToString (threshold r);
             Normal (Element (" (Threshold: " ++ t ++ " dB)"))
           else Normal (Leftover (threshold r)));
  Normal {| cardAlert := truthy (alert r);
            statValue := headline;
            thresholdLabel := label;
            fillClass := cls;
            fillWidth := NumberToString pct ++ "%";
            banner := truthy (alert r);
            thresholdTick := threshold r |}.

End Render.

End AudioCard.

(** ** LogTable.jsx *)

Module LogTable.

Import Dashboard.

Section Format.

(** Conversions of the language taken as given: the text of a value in a
    template literal, [Number.prototype.toFixed] and [JSON.stringify] (on a
    value other than [undefined]). *)
Variable ToString : value -> completion string.
Variable Number_toFixed : float -> nat -> string.
Variable JSON_stringify : value -> string.
(** [s.substring(start, end)], which counts UTF-16 code units; a string
    of this development holds its text in UTF-8, so the positions are not
    those of its bytes. *)
Variable String_substring : string -> nat -> nat -> string.

(** [v.toFixed(1)]: only numbers have the method. *)
Definition toFixed1 (v : value) : completion string :=
  match v with
  | VNum x => Normal (Number_toFixed x 1)
  | _ => TypeError
  end.

Definition stringify (v : value) : completion string :=
  match v with
  | VUndefined => TypeError     (* undefined.substring *)
  | _ => Normal (JSON_stringify v)
  end.

Definition formatData (log : log_entry) : completion string :=
  let data := log_data log in
  if strict_eq_str (log_source log) "cam0" then
    people_count ← get data "people_count";
    people ← ToString (or people_count (VNum 0%float));
    accident_detected ← get data "accident_detected";
    Normal ("People: " ++ people ++
            (if truthy accident_detected then " | ⚠️ ACCIDENT" else ""))
  else if strict_eq_str (log_source log) "cam10" then
    ppe_compliant ← get data "ppe_compliant";
    ok ← ToString (or ppe_compliant (VNum 0%float));
    ppe_non_compliant ← get data "ppe_non_compliant";
    ko ← ToString (or ppe_non_compliant (VNum 0%float));
    Normal ("PPE: " ++ ok ++ " ✓ / " ++ ko ++ " ✗")
  else if strict_eq_str (log_source log) "audio" then
    noise_level ← get data "noise_level";
    level ← toFixed1 (or noise_level (VNum 0%float));
    alert ← get data "alert";
    Normal (level ++ " dB" ++ (if truthy alert then " | 🔊 ALERT" else ""))
  else
    json ← stringify data;
    Normal (String_substring json 0 50 ++ "...").

(** The count shown in the header of the table: [logs.length]. *)
Definition log_count (logs : list log_entry) : nat := length logs.

(** The table shows a notice instead of rows while [logs.length === 0]. *)
Definition showsPlaceholder (logs : list log_entry) : bool :=
  bool_decide (length logs = 0).

End Format.

End LogTable.

(** ** The backend pipeline (design document, sections 3, 4.1, 4.2, 4.4) *)

Module Pipeline.

(** Modelled from the spec: the [Event] record of the data model; the
    backend that defines it is not among the sources.  [id] and
    [created_at] are absent until the store assigns them. *)
Record Event : Type := mkEvent {
  id : option nat;
  source : string;
  type : string;
  payload : gmap string value;
  timestamp : Z;
  created_at : option Z
}.

(** Modelled from the spec: the logical fields of an event, those a
    producer fills in. *)
Definition logical_fields (e : Event)
  : string * string * gmap string value * Z :=
  (source e, type e, payload e, timestamp e).

(** Modelled from the spec: the bounded FIFO [EventQueue] of section 4.2;
    its implementation is not among the sources.  The front of the queue
    is the head of [items]. *)
Record EventQueue : Type := mkQueue {
  capacity : nat;
  items : list Event
}.

Definition empty_queue (C : nat) : EventQueue :=
  {| capacity := C; items := [] |}.

(** Modelled from the spec: [tryEnqueue(event) -> bool] never blocks and
    returns failure at once when the queue is full; the arriving event is
    discarded and the queued ones are kept (drop-newest). *)
Definition tryEnqueue (e : Event) (q : EventQueue) : bool * EventQueue :=
  if bool_decide (length (items q) < capacity q)
  then (true, {| capacity := capacity q; items := items q ++ [e] |})
  else (false, q).

(** Modelled from the spec: [dequeue(timeout) -> Event | Empty]; [None]
    is the Empty signal returned when the timeout expires. *)
Definition dequeue (q : EventQueue) : option Event * EventQueue :=
  match items q with
  | [] => (None, q)
  | e :: rest => (Some e, {| capacity := capacity q; items := rest |})
  end.

(** Modelled from the spec: the queue together with its process-wide
    [DropCounter] (section 3). *)
Record producer_side : Type := mkSide {
  queue : EventQueue;
  DropCounter : nat
}.

(** Modelled from the spec: the enqueue attempt of a [SensorWorker]
    (section 4.1): an attempt that fails because the queue is full
    increments [DropCounter] and the event is discarded. *)
Definition emit (e : Event) (p : producer_side) : bool * producer_side :=
  let '(accepted, q) := tryEnqueue e (queue p) in
  (accepted,
   {| queue := q;
      DropCounter := if accepted then DropCounter p else S (DropCounter p) |}).

(** A burst of attempts with no dequeue in between; the outcomes are in
    the order of the attempts. *)
Fixpoint emit_all (es : list Event) (p : producer_side)
  : list bool * producer_side :=
  match es with
  | [] => ([], p)
  | e :: rest =>
      let '(ok, p1) := emit e p in
      let '(oks, p2) := emit_all rest p1 in
      (ok :: oks, p2)
  end.

(** Modelled from the spec: the [EventStore] of section 4.4 with its
    primary log, its fallback append-only log and the identifier it
    assigns next; its implementation is not among the sources. *)
Record EventStore : Type := mkStore {
  primary : list Event;
  fallback : list Event;
  next_id : nat
}.

Definition empty_store : EventStore :=
  {| primary := []; fallback := []; next_id := 1 |}.

(** Modelled from the spec: what [append] reports (sections 4.4 and 7). *)
Inductive append_status : Type :=
| Persisted
| DegradedMode
| FatalError.

Definition assign (i : nat) (now : Z) (e : Event) : Event :=
  {| id := Some i; source := source e; type := type e;
     payload := payload e; timestamp := timestamp e;
     created_at := Some now |}.

(** Modelled from the spec: [append(event)] records the event in the
    primary log, assigning [id] and [created_at]; on primary failure it
    writes the event to the fallback log with the same logical fields and
    reports degraded mode.  [primary_ok] says whether the primary write
    succeeds and [now] is the persistence time. *)
Definition append (primary_ok : bool) (now : Z) (e : Event) (s : EventStore)
  : append_status * EventStore :=
  let stored := assign (next_id s) now e in
  if primary_ok then
    (Persisted,
     {| primary := primary s ++ [stored]; fallback := fallback s;
        next_id := S (next_id s) |})
  else
    (DegradedMode,
     {| primary := primary s; fallback := fallback s ++ [stored];
        next_id := S (next_id s) |}).

(** The store after a history of appends. *)
Definition append_all (ops : list (bool * Z * Event)) (s : EventStore)
  : EventStore :=
  foldl (fun s op => (append op.1.1 op.1.2 op.2 s).2) s ops.

(** The identifiers in use in either log. *)
Definition used_ids (s : EventStore) : list nat :=
  omap id (primary s ++ fallback s)%list.

End Pipeline.

(** ** Vocabulary of the specification *)

Module Spec.

Import Dashboard.

(** The entry the client is expected to log for a message handled at time
    [now]: none for [null] and for the control messages, otherwise the
    message with its [timestamp], [source] and [type] read off. *)
Definition logged (m : Z * value) : option log_entry :=
  match get m.2 "type", get m.2 "source", get m.2 "timestamp" with
  | Normal ty, Normal source, Normal timestamp =>
      if is_control_type ty then None
      else Some {| log_id := m.1; log_timestamp := timestamp;
                   log_source := source; log_type := ty; log_data := m.2 |}
  | _, _, _ => None
  end.

(** A field of a message with a default that applies when the field is
    absent, the reading of the audio claim as it is worded. *)
Definition field_or_default_if_absent
  (o : gmap string value) (k : string) (d : value) : value :=
  match o !! k with
  | Some v => v
  | None => d
  end.

(** A field of a message with a default that applies when the field is
    absent or falsy. *)
Definition field_or_default_if_falsy
  (o : gmap string value) (k : string) (d : value) : value :=
  match o !! k with
  | Some v => if truthy v then v else d
  | None => d
  end.

(** The audio message of the end-to-end scenario. *)
Definition audio_scenario : gmap string value :=
  list_to_map [("source", VStr "audio"); ("type", VStr "noise_level");
               ("noise_level", VNum 87.5%float); ("threshold", VNum 85%float);
               ("alert", VBool true)].

(** The camera message of the end-to-end scenario. *)
Definition cam0_scenario : gmap string value :=
  list_to_map [("source", VStr "cam0"); ("type", VStr "camera_detection");
               ("people_count", VNum 5%float);
               ("accident_detected", VBool false); ("fps", VNum 10%float)].

(** An audio message that reports a threshold of zero. *)
Definition audio_zero_threshold : gmap string value :=
  list_to_map [("source", VStr "audio"); ("type", VStr "noise_level");
               ("noise_level", VNum 60%float); ("threshold", VNum 0%float);
               ("alert", VBool false)].

(** Timers the component can have registered: reconnections are
    time-outs of 3000 ms, the keep-alive is an interval of 20000 ms, and
    every identifier handed out is below [next_timer]. *)
Definition timers_ok (c : client) : Prop :=
  (forall id t, timeouts c !! id = Some t ->
                t = mkTimer Reconnect 3000 /\ id < next_timer c) /\
  (forall id t, intervals c !! id = Some t ->
                t = mkTimer SendPing 20000 /\ id < next_timer c).

(** A field of a card object that is a number or is missing. *)
Definition number_or_absent (o : gmap string value) (k : string) : bool :=
  match o !! k with
  | None | Some (VNum _) => true
  | Some _ => false
  end.

(** The number of failed attempts among the outcomes of a burst. *)
Definition failures (outcomes : list bool) : nat :=
  length (filter (fun ok => ok = false) outcomes).

(** Every identifier in use in a store was handed out by it: it is
    positive and below the next one. *)
Definition ids_handed_out (s : Pipeline.EventStore) : Prop :=
  0 < Pipeline.next_id s /\
  Forall (fun i => 0 < i < Pipeline.next_id s) (Pipeline.used_ids s).

(** Three events a camera and the microphone could produce. *)
Definition sample_event (n : Z) : Pipeline.Event :=
  {| Pipeline.id := None; Pipeline.source := "cam0";
     Pipeline.type := "camera_detection";
     Pipeline.payload := {[ "people_count" := VNum 5%float ]};
     Pipeline.timestamp := n; Pipeline.created_at := None |}.

(** The events of the component's lifecycle, as opposed to those of its
    socket and timers. *)
Definition is_lifecycle (e : event) : bool :=
  match e with
  | Mount | Unmount => true
  | _ => false
  end.

(** The state of a client that was mounted once and not unmounted since:
    every socket but the newest is closed, the newest is the current one,
    [connected] says whether it has opened and its close event is still to
    come, a reconnection is pending exactly when it is closed, and the
    keep-alive interval is the only interval. *)
Definition mounted (c : client) : Prop :=
  exists older current ping,
    sockets c = (older ++ [current])%list /\
    wsRef c = Some (length older) /\
    Forall (fun rs => rs = CLOSED) older /\
    (connected (ui c) = true <-> current = OPEN \/ current = CLOSING) /\
    (current <> CLOSED -> timeouts c = ∅) /\
    (current = CLOSED ->
     exists id, reconnectTimeoutRef c = Some id /\
                timeouts c = {[ id := mkTimer Reconnect 3000 ]}) /\
    pingInterval c = Some ping /\
    intervals c = {[ ping := mkTimer SendPing 20000 ]}.

(** The number of sockets of a client that are not closed. *)
Definition live_sockets (c : client) : nat :=
  length (filter (fun rs => rs <> CLOSED) (sockets c)).

(** A PPE message that carries only a count of compliant people. *)
Definition cam10_partial : gmap string value :=
  list_to_map [("source", VStr "cam10"); ("type", VStr "camera_detection");
               ("ppe_compliant", VNum 2%float)].

(** A camera message that reports an accident and nothing else. *)
Definition cam0_accident : gmap string value :=
  list_to_map [("source", VStr "cam0"); ("accident_detected", VBool true);
               ("accident_type", VStr "person_lying_down")].

(** Whether a value is a number, and whether it is a string. *)
Definition is_number (v : value) : bool :=
  match v with
  | VNum _ => true
  | _ => false
  end.

Definition is_string (v : value) : bool :=
  match v with
  | VStr _ => true
  | _ => false
  end.

(** The card of the [data] state that belongs to a source. *)
Definition card_of (source : string) (d : card_data) : value :=
  if String.eqb source "cam0" then cam0 d
  else if String.eqb source "cam10" then cam10 d
  else audio d.

(** A camera message whose frame rate came as text. *)
Definition cam0_fps_text : gmap string value :=
  list_to_map [("source", VStr "cam0"); ("type", VStr "camera_detection");
               ("people_count", VNum 1%float); ("fps", VStr "10")].

(** A frame from a source the dashboard has no card for, as an object and
    as the text [JSON.stringify] gives for it (77 characters, all ASCII). *)
Definition cam7_message : gmap string value :=
  list_to_map [("source", VStr "cam7"); ("type", VStr "camera_detection");
               ("timestamp", VStr "2024-01-01T00:00:00")].

Definition dquote : string := String (Ascii.ascii_of_nat 34) EmptyString.

Definition cam7_json : string :=
  "{" ++ dquote ++ "source" ++ dquote ++ ":" ++ dquote ++ "cam7" ++ dquote
  ++ "," ++ dquote ++ "type" ++ dquote ++ ":" ++ dquote
  ++ "camera_detection" ++ dquote ++ "," ++ dquote ++ "timestamp" ++ dquote
  ++ ":" ++ dquote ++ "2024-01-01T00:00:00" ++ dquote ++ "}".

(** The row of the table for that frame: the first 50 characters of the
    text, then the ellipsis. *)
Definition cam7_row : string :=
  "{" ++ dquote ++ "source" ++ dquote ++ ":" ++ dquote ++ "cam7" ++ dquote
  ++ "," ++ dquote ++ "type" ++ dquote ++ ":" ++ dquote
  ++ "camera_detection" ++ dquote ++ "," ++ dquote ++ "timest" ++ "...".

(** [substring(start, end)] on a text that is all ASCII, where code units
    and bytes coincide. *)
Definition ascii_substring (s : string) (first last : nat) : string :=
  String.substring first (last - first) s.

(** A PPE frame whose [total_detected] is an object with a property
    named [toString]. *)
Definition cam10_object_total : gmap string value :=
  list_to_map [("source", VStr "cam10"); ("type", VStr "camera_detection");
               ("ppe_compliant", VNum 3%float);
               ("total_detected", obj [("toString", VNum 1%float)])].

(** A PPE card with three compliant people out of four. *)
Definition cam10_three_of_four : gmap string value :=
  list_to_map [("ppe_compliant", VNum 3%float);
               ("ppe_non_compliant", VNum 1%float);
               ("total_detected", VNum 4%float)].

End Spec.

(** * Properties *)

Import Dashboard Spec.

(** ** Message handling *)

Lemma get_Normal_not_nullish message k v :
  get message k = Normal v -> message <> VUndefined /\ message <> VNull.
Proof. destruct message; simpl; intros H; split; congruence. Qed.

Lemma get_total message k v k' :
  get message k = Normal v -> exists v', get message k' = Normal v'.
Proof. destruct message; simpl; intros H; try discriminate; eauto. Qed.

Lemma is_control_type_spec ty :
  is_control_type ty = true <->
  ty = VStr "connection" \/ ty = VStr "pong" \/ ty = VStr "keepalive".
Proof.
  unfold is_control_type, strict_eq_str. split.
  - destruct ty; simpl; try discriminate.
    rewrite !orb_true_iff, !String.eqb_eq. intuition congruence.
  - intros [-> | [-> | ->]]; reflexivity.
Qed.

(** C5: a message whose [type] is [connection], [pong] or [keepalive] is
    ignored: [handleMessage] returns normally and the whole state, in
    particular the card data and the logs, is what it was. *)
Theorem control_message_ignored now message st ty :
  get message "type" = Normal (VStr ty) ->
  ty = "connection" \/ ty = "pong" \/ ty = "keepalive" ->
  handleMessage now message st = Normal st /\
  data (onmessage now message st) = data st /\
  logs (onmessage now message st) = logs st.
Proof.
  intros Hty Hctl.
  assert (H : handleMessage now message st = Normal st).
  { unfold handleMessage. rewrite Hty. simpl.
    replace (is_control_type (VStr ty)) with true; [reflexivity|].
    symmetry. apply is_control_type_spec. intuition congruence. }
  unfold onmessage. rewrite H. auto.
Qed.

Lemma control_message_ignored_witness :
  handleMessage 1700000000000 (obj [("type", VStr "keepalive")]) initial_state
    = Normal initial_state /\
  data (onmessage 1700000000000 (obj [("type", VStr "keepalive")])
          initial_state) = data initial_state /\
  logs (onmessage 1700000000000 (obj [("type", VStr "keepalive")])
          initial_state) = logs initial_state.
Proof.
  apply (control_message_ignored _ _ _ "keepalive").
  - reflexivity.
  - right; right; reflexivity.
Defined.

(** The three card states and the logs after an event message, branch by
    branch. *)
Lemma handleMessage_event now message st ty source timestamp :
  get message "type" = Normal ty ->
  get message "source" = Normal source ->
  get message "timestamp" = Normal timestamp ->
  is_control_type ty = false ->
  handleMessage now message st =
    data' ← (if strict_eq_str source "cam0" then
               c ← cam0_card message; Normal (set_cam0 c (data st))
             else if strict_eq_str source "cam10" then
               c ← cam10_card message; Normal (set_cam10 c (data st))
             else if strict_eq_str source "audio" then
               c ← audio_card message; Normal (set_audio c (data st))
             else Normal (data st));
    Normal {| connected := connected st; data := data';
              logs := add_log (mkLog now timestamp source ty message)
                              (logs st) |}.
Proof.
  intros Hty Hsrc Hts Hctl. unfold handleMessage.
  rewrite Hty. simpl. rewrite Hctl, Hsrc. simpl.
  destruct (strict_eq_str source "cam0"); [|
    destruct (strict_eq_str source "cam10"); [|
      destruct (strict_eq_str source "audio")]].
  - destruct (cam0_card message); simpl; [rewrite Hts|]; reflexivity.
  - destruct (cam10_card message); simpl; [rewrite Hts|]; reflexivity.
  - destruct (audio_card message); simpl; [rewrite Hts|]; reflexivity.
  - simpl. rewrite Hts. reflexivity.
Qed.

Lemma get_obj o k : get (VObj o) k = Normal (default VUndefined (o !! k)).
Proof. reflexivity. Qed.

(** C6: an event message with source [cam0], type [camera_detection],
    [people_count] 5, [accident_detected] false and [fps] 10 sets the cam0
    card to exactly these three values (its [accident_type] is the one of
    the message, if any), leaves the other two cards alone, and puts one
    entry with that source and type, holding the message itself, at the
    front of the logs. *)
Theorem cam0_event_updates_card_and_log now (o : gmap string value) st :
  o !! "source" = Some (VStr "cam0") ->
  o !! "type" = Some (VStr "camera_detection") ->
  o !! "people_count" = Some (VNum 5%float) ->
  o !! "accident_detected" = Some (VBool false) ->
  o !! "fps" = Some (VNum 10%float) ->
  exists st' entry,
    handleMessage now (VObj o) st = Normal st' /\
    cam0 (data st') =
      obj [("people_count", VNum 5%float); ("accident_detected", VBool false);
           ("accident_type", default VUndefined (o !! "accident_type"));
           ("fps", VNum 10%float)] /\
    get (cam0 (data st')) "people_count" = Normal (VNum 5%float) /\
    get (cam0 (data st')) "accident_detected" = Normal (VBool false) /\
    get (cam0 (data st')) "fps" = Normal (VNum 10%float) /\
    cam10 (data st') = cam10 (data st) /\
    audio (data st') = audio (data st) /\
    logs st' = take 50 (entry :: logs st) /\
    head (logs st') = Some entry /\
    log_source entry = VStr "cam0" /\
    log_type entry = VStr "camera_detection" /\
    log_data entry = VObj o.
Proof.
  intros Hsrc Hty Hpc Hacc Hfps.
  eexists _, (mkLog now (default VUndefined (o !! "timestamp")) (VStr "cam0")
                (VStr "camera_detection") (VObj o)).
  split.
  { erewrite handleMessage_event; try (rewrite get_obj; reflexivity).
    - rewrite Hsrc. simpl. rewrite Hpc, Hacc, Hfps, Hty. reflexivity.
    - rewrite Hty. reflexivity. }
  simpl. repeat split; reflexivity.
Qed.

Lemma cam0_event_updates_card_and_log_witness :
  exists st' entry,
    handleMessage 1700000000000 (VObj cam0_scenario) initial_state
      = Normal st' /\
    cam0 (data st') =
      obj [("people_count", VNum 5%float); ("accident_detected", VBool false);
           ("accident_type",
            default VUndefined (cam0_scenario !! "accident_type"));
           ("fps", VNum 10%float)] /\
    get (cam0 (data st')) "people_count" = Normal (VNum 5%float) /\
    get (cam0 (data st')) "accident_detected" = Normal (VBool false) /\
    get (cam0 (data st')) "fps" = Normal (VNum 10%float) /\
    cam10 (data st') = cam10 (data initial_state) /\
    audio (data st') = audio (data initial_state) /\
    logs st' = take 50 (entry :: logs initial_state) /\
    head (logs st') = Some entry /\
    log_source entry = VStr "cam0" /\
    log_type entry = VStr "camera_detection" /\
    log_data entry = VObj cam0_scenario.
Proof.
  apply (cam0_event_updates_card_and_log 1700000000000 cam0_scenario
           initial_state); reflexivity.
Defined.

(** The number held by the outcome of a property read, for telling two
    such outcomes apart. *)
Lemma Normal_VNum_eqb (c : completion value) x y :
  c = Normal (VNum x) -> c = Normal (VNum y) ->
  PrimFloat.eqb x x = PrimFloat.eqb x y.
Proof.
  intros Hx Hy.
  assert (H : match c with Normal (VNum z) => PrimFloat.eqb x z | _ => false end
              = PrimFloat.eqb x x) by (rewrite Hx; reflexivity).
  rewrite Hy in H. symmetry. exact H.
Qed.

Lemma or_field_or_default (o : gmap string value) k d :
  or (default VUndefined (o !! k)) d = field_or_default_if_falsy o k d.
Proof.
  unfold field_or_default_if_falsy, or. destruct (o !! k); reflexivity.
Qed.

(** C7, as worded, fails: an audio message that carries a threshold of 0
    has the field, yet the card state gets the default 85 and not the
    field's value. *)
Lemma audio_threshold_zero_not_kept :
  exists st',
    handleMessage 1700000000000 (VObj audio_zero_threshold) initial_state
      = Normal st' /\
    audio_zero_threshold !! "threshold" = Some (VNum 0%float) /\
    get (audio (data st')) "threshold" = Normal (VNum 85%float) /\
    get (audio (data st')) "threshold" <>
      Normal (field_or_default_if_absent audio_zero_threshold "threshold"
                (VNum 85%float)).
Proof.
  eexists. split; [reflexivity|]. split; [reflexivity|].
  split; [reflexivity|].
  intros H.
  pose proof (Normal_VNum_eqb _ 85%float 0%float eq_refl H) as E.
  vm_compute in E. discriminate.
Qed.

(** C7, amended: an event message with source [audio] sets the audio card
    to the message's [noise_level], [threshold] and [alert], each replaced
    by its default (0, 85, false) when the field is absent or falsy; so an
    [alert] that is [true] in the message is [true] in the card state and
    in what the audio card reads from it. *)
Theorem audio_event_updates_card now (o : gmap string value) st :
  o !! "source" = Some (VStr "audio") ->
  is_control_type (default VUndefined (o !! "type")) = false ->
  exists st',
    handleMessage now (VObj o) st = Normal st' /\
    audio (data st') =
      obj [("noise_level",
            field_or_default_if_falsy o "noise_level" (VNum 0%float));
           ("threshold",
            field_or_default_if_falsy o "threshold" (VNum 85%float));
           ("alert", field_or_default_if_falsy o "alert" (VBool false))] /\
    cam0 (data st') = cam0 (data st) /\
    cam10 (data st') = cam10 (data st) /\
    (o !! "alert" = Some (VBool true) ->
     get (audio (data st')) "alert" = Normal (VBool true) /\
     exists r, AudioCard.read (audio (data st')) = Normal r /\
               AudioCard.alert r = VBool true).
Proof.
  intros Hsrc Hctl. eexists. split.
  { erewrite handleMessage_event; try (rewrite get_obj; reflexivity).
    - rewrite Hsrc. simpl. rewrite !or_field_or_default. reflexivity.
    - exact Hctl. }
  simpl. repeat split; try reflexivity.
  - unfold field_or_default_if_falsy. rewrite H. reflexivity.
  - eexists. split; [reflexivity|]. simpl.
    unfold field_or_default_if_falsy. rewrite H. reflexivity.
Qed.

Lemma audio_event_updates_card_witness :
  exists st',
    handleMessage 1700000000000 (VObj audio_scenario) initial_state
      = Normal st' /\
    get (audio (data st')) "noise_level" = Normal (VNum 87.5%float) /\
    get (audio (data st')) "alert" = Normal (VBool true).
Proof.
  destruct (audio_event_updates_card 1700000000000 audio_scenario
              initial_state eq_refl eq_refl)
    as (st' & Hrun & Hcard & _ & _ & Halert).
  exists st'. split; [exact Hrun|]. split.
  - rewrite Hcard. reflexivity.
  - apply Halert. reflexivity.
Defined.

(** C10: an event message whose source is none of [cam0], [cam10] and
    [audio] leaves the three cards as they were and is still put at the
    front of the logs, where [formatData] renders it through its last
    branch, [substring(0, 50)] of its JSON text followed by an
    ellipsis. *)
Theorem unknown_source_only_logged
    (ToString : value -> completion string)
    (Number_toFixed : float -> nat -> string)
    (JSON_stringify : value -> string)
    (String_substring : string -> nat -> nat -> string)
    now message st ty source :
  get message "type" = Normal ty ->
  get message "source" = Normal source ->
  is_control_type ty = false ->
  source <> VStr "cam0" -> source <> VStr "cam10" -> source <> VStr "audio" ->
  exists st' entry,
    handleMessage now message st = Normal st' /\
    data st' = data st /\
    logs st' = take 50 (entry :: logs st) /\
    head (logs st') = Some entry /\
    log_source entry = source /\ log_type entry = ty /\
    log_data entry = message /\
    LogTable.formatData ToString Number_toFixed JSON_stringify
      String_substring entry =
      Normal (String_substring (JSON_stringify message) 0 50 ++ "...").
Proof.
  intros Hty Hsrc Hctl H0 H10 Ha.
  destruct (get_total _ _ _ "timestamp" Hty) as [ts Hts].
  assert (Hne : forall lit, source <> VStr lit -> strict_eq_str source lit = false).
  { intros lit Hn. destruct source; simpl; try reflexivity.
    apply String.eqb_neq. congruence. }
  exists {| connected := connected st; data := data st;
            logs := add_log (mkLog now ts source ty message) (logs st) |},
         (mkLog now ts source ty message).
  split.
  { rewrite (handleMessage_event _ _ _ _ _ _ Hty Hsrc Hts Hctl).
    rewrite !Hne by assumption. reflexivity. }
  simpl. repeat split; try reflexivity.
  unfold LogTable.formatData. simpl. rewrite !Hne by assumption.
  destruct (get_Normal_not_nullish _ _ _ Hty) as [Hu _].
  destruct message; try congruence; reflexivity.
Qed.

Lemma unknown_source_only_logged_witness :
  exists st' entry,
    handleMessage 1700000000000 (VObj cam7_message) initial_state
      = Normal st' /\
    data st' = data initial_state /\
    logs st' = [entry] /\
    LogTable.formatData (fun _ => Normal "") (fun _ _ => "")
      (fun _ => cam7_json) ascii_substring entry = Normal cam7_row.
Proof.
  destruct (unknown_source_only_logged (fun _ => Normal "") (fun _ _ => "")
              (fun _ => cam7_json) ascii_substring 1700000000000
              (VObj cam7_message)
              initial_state (VStr "camera_detection") (VStr "cam7")
              eq_refl eq_refl eq_refl
              ltac:(discriminate) ltac:(discriminate) ltac:(discriminate))
    as (st' & entry & Hrun & Hdata & Hlogs & _ & _ & _ & _ & Hfmt).
  exists st', entry. repeat split; assumption.
Defined.

(** ** The logs list *)

Lemma take_app_take_le {A} (a b : list A) n m :
  n <= m -> take n (a ++ take m b) = take n (a ++ b).
Proof.
  revert n. induction a as [|x a IH]; intros n Hle; simpl.
  - rewrite take_take. f_equal. lia.
  - destruct n as [|n]; [reflexivity|]. simpl. f_equal. apply IH. lia.
Qed.

Lemma add_log_length entry prev : length (add_log entry prev) <= 50.
Proof. unfold add_log. rewrite length_take. lia. Qed.

(** One message: the logs gain the expected entry at the front, cut to 50,
    or stay as they are. *)
Lemma onmessage_logs now message st :
  logs (onmessage now message st) =
    match logged (now, message) with
    | Some entry => add_log entry (logs st)
    | None => logs st
    end.
Proof.
  unfold onmessage, logged. simpl.
  destruct (get message "type") as [ty|] eqn:Hty.
  2:{ unfold handleMessage. rewrite Hty. reflexivity. }
  destruct (get_total _ _ _ "source" Hty) as [src Hsrc].
  destruct (get_total _ _ _ "timestamp" Hty) as [ts Hts].
  rewrite Hsrc, Hts.
  destruct (is_control_type ty) eqn:Hctl.
  - unfold handleMessage. rewrite Hty. simpl. rewrite Hctl. reflexivity.
  - rewrite (handleMessage_event _ _ _ _ _ _ Hty Hsrc Hts Hctl).
    assert (H0 : exists c, cam0_card message = Normal c).
    { unfold cam0_card.
      destruct message; try discriminate; simpl; eauto. }
    assert (H10 : exists c, cam10_card message = Normal c).
    { unfold cam10_card.
      destruct message; try discriminate; simpl; eauto. }
    assert (Ha : exists c, audio_card message = Normal c).
    { unfold audio_card.
      destruct message; try discriminate; simpl; eauto. }
    destruct H0 as [c0 ->], H10 as [c10 ->], Ha as [ca ->].
    destruct (strict_eq_str src "cam0"); [reflexivity|].
    destruct (strict_eq_str src "cam10"); [reflexivity|].
    destruct (strict_eq_str src "audio"); reflexivity.
Qed.

Lemma onmessage_logs_length now message st :
  length (logs st) <= 50 -> length (logs (onmessage now message st)) <= 50.
Proof.
  intros H. rewrite onmessage_logs.
  destruct (logged (now, message)); [apply add_log_length | exact H].
Qed.

Lemma run_logs msgs st :
  length (logs st) <= 50 ->
  logs (run msgs st) = take 50 (reverse (omap logged msgs) ++ logs st).
Proof.
  revert st. induction msgs as [|[now m] msgs IH]; intros st Hlen.
  - simpl. rewrite take_ge by lia. reflexivity.
  - change (run ((now, m) :: msgs) st) with (run msgs (onmessage now m st)).
    rewrite IH by (apply onmessage_logs_length; exact Hlen).
    rewrite onmessage_logs. simpl.
    destruct (logged (now, m)) as [entry|]; [|reflexivity].
    rewrite reverse_cons, <- app_assoc. simpl.
    unfold add_log. apply take_app_take_le. lia.
Qed.

(** C8: after any sequence of messages the logs hold at most 50 entries,
    which is the count the table shows, and are the 50 most recent logged
    entries, newest first; handling one
    more message keeps the bound and either leaves the logs alone (a
    control message, or [null]) or puts the new entry at the front and
    drops what lies beyond the first 50. *)
Theorem logs_bounded_newest_first msgs :
  let st := run msgs initial_state in
  length (logs st) <= 50 /\
  LogTable.log_count (logs st) <= 50 /\
  logs st = take 50 (reverse (omap logged msgs)) /\
  forall now message,
    length (logs (onmessage now message st)) <= 50 /\
    logs (onmessage now message st) =
      match logged (now, message) with
      | Some entry => take 50 (entry :: logs st)
      | None => logs st
      end.
Proof.
  intros st.
  assert (Hlogs : logs st = take 50 (reverse (omap logged msgs))).
  { unfold st. rewrite run_logs by (simpl; lia).
    simpl. rewrite app_nil_r. reflexivity. }
  assert (Hlen : length (logs st) <= 50).
  { rewrite Hlogs, length_take. lia. }
  repeat split; try assumption.
  - apply onmessage_logs_length. exact Hlen.
  - apply onmessage_logs.
Qed.

(** Sixty camera events in a row: the logs keep the last fifty, the newest
    at the front and the eleventh at the back. *)
Example logs_after_sixty_events :
  let msgs := (fun n => (Z.of_nat n, VObj cam0_scenario)) <$> seq 0 60 in
  let st := run msgs initial_state in
  length (logs st) = 50 /\
  (log_id <$> head (logs st)) = Some 59%Z /\
  (log_id <$> last (logs st)) = Some 10%Z.
Proof. vm_compute. repeat split. Qed.

(** ** Reconnection and keep-alive *)

Lemma timers_ok_initial : timers_ok initial_client.
Proof. split; intros id t H; simpl in H; rewrite lookup_empty in H; discriminate. Qed.

Lemma timers_ok_step e c : timers_ok c -> timers_ok (step e c).
Proof.
  intros [Ht Hi].
  assert (Hins : forall (m : gmap nat timer) n t0,
            (forall id t, m !! id = Some t -> t = t0 /\ id < n) ->
            forall id t, <[n := t0]> m !! id = Some t -> t = t0 /\ id < S n).
  { intros m n t0 Hm id t. rewrite lookup_insert. case_decide.
    - intros [= <-]. subst. split; [reflexivity | lia].
    - intros H'. apply Hm in H'. split; [tauto | lia]. }
  assert (Hweak : forall (m : gmap nat timer) n t0,
            (forall id t, m !! id = Some t -> t = t0 /\ id < n) ->
            forall id t, m !! id = Some t -> t = t0 /\ id < S n).
  { intros m n t0 Hm id t H'. apply Hm in H'. split; [tauto | lia]. }
  assert (Hdel : forall (m : gmap nat timer) n t0 k,
            (forall id t, m !! id = Some t -> t = t0 /\ id < n) ->
            forall id t, delete k m !! id = Some t -> t = t0 /\ id < n).
  { intros m n t0 k Hm id t. rewrite lookup_delete. case_decide; [discriminate|].
    apply Hm. }
  destruct e; simpl.
  - (* Mount *) split; simpl; eauto.
  - (* Unmount *)
    split; simpl.
    + destruct (reconnectTimeoutRef c); eauto.
    + destruct (pingInterval c); eauto.
  - case_bool_decide; [|split; assumption]. split; assumption.
  - case_bool_decide; [destruct parsed|]; split; assumption.
  - case_bool_decide; split; assumption.
  - destruct (sockets c !! ws) as [[]|]; try (split; assumption);
      split; simpl; eauto.
  - destruct (timeouts c !! id) as [t|] eqn:E; [|split; assumption].
    destruct (Ht _ _ E) as [-> _]. simpl. split; simpl; eauto.
  - destruct (intervals c !! id) as [t|] eqn:E; [|split; assumption].
    destruct (Hi _ _ E) as [-> _]. simpl. unfold sendPing.
    destruct (wsRef c); [case_bool_decide|]; split; assumption.
Qed.

Lemma timers_ok_run es c : timers_ok c -> timers_ok (run_events es c).
Proof.
  revert c. induction es as [|e es IH]; intros c H; [exact H|].
  apply IH, timers_ok_step, H.
Qed.

(** C3: in every state the client can reach, a close event of a socket
    that is not closed yet registers exactly one new time-out, which
    reconnects after 3000 ms whatever happened before; when it fires, a
    new socket, distinct from all the earlier ones, is constructed in
    state CONNECTING and becomes the current one. *)
Theorem close_schedules_one_reconnect es ws rs :
  let c := run_events es initial_client in
  sockets c !! ws = Some rs -> rs <> CLOSED ->
  let c' := step (SocketClose ws) c in
  exists id,
    timeouts c !! id = None /\
    timeouts c' = <[id := mkTimer Reconnect 3000]> (timeouts c) /\
    size (timeouts c') = S (size (timeouts c)) /\
    reconnectTimeoutRef c' = Some id /\
    connected (ui c') = false /\
    length (sockets c') = length (sockets c) /\
    let c'' := step (TimeoutFires id) c' in
    sockets c'' = (sockets c' ++ [CONNECTING])%list /\
    wsRef c'' = Some (length (sockets c')) /\
    sockets c' !! length (sockets c') = None /\
    timeouts c'' = timeouts c.
Proof.
  intros c Hws Hrs c'.
  assert (Hok : timers_ok c) by apply timers_ok_run, timers_ok_initial.
  assert (Hfresh : timeouts c !! next_timer c = None).
  { destruct (timeouts c !! next_timer c) eqn:E; [|reflexivity].
    apply Hok in E. lia. }
  assert (Hc' : c' = onclose (set_readyState ws CLOSED c)).
  { unfold c'. simpl. rewrite Hws. destruct rs; congruence. }
  exists (next_timer c). rewrite Hc'. simpl.
  repeat split; try assumption.
  - rewrite map_size_insert_None by assumption. reflexivity.
  - apply length_insert.
  - rewrite lookup_insert_eq. reflexivity.
  - rewrite lookup_insert_eq. reflexivity.
  - apply lookup_ge_None. lia.
  - rewrite lookup_insert_eq. simpl. rewrite delete_insert_eq.
    apply delete_id. assumption.
Qed.

Lemma close_schedules_one_reconnect_witness :
  exists id,
    timeouts (step (SocketClose 0) (run_events [Mount; SocketOpen 0]
                                      initial_client))
      = {[ id := mkTimer Reconnect 3000 ]} /\
    sockets (step (TimeoutFires id)
               (step (SocketClose 0) (run_events [Mount; SocketOpen 0]
                                        initial_client)))
      = [CLOSED; CONNECTING].
Proof.
  destruct (close_schedules_one_reconnect [Mount; SocketOpen 0] 0 OPEN
              eq_refl ltac:(discriminate))
    as (id & _ & Ht & _ & _ & _ & _ & Hs & _).
  exists id. split; [exact Ht | exact Hs].
Defined.

Lemma set_ui_sent f c : sent (set_ui f c) = sent c.
Proof. reflexivity. Qed.

(** The interval body sends exactly when the current socket is open. *)
Lemma sendPing_spec c :
  (exists ws, wsRef c = Some ws /\ sockets c !! ws = Some OPEN /\
              sent (sendPing c) = (sent c ++ [(ws, "ping")])%list) \/
  ((forall ws, wsRef c = Some ws -> sockets c !! ws <> Some OPEN) /\
   sendPing c = c).
Proof.
  unfold sendPing. destruct (wsRef c) as [ws|] eqn:Hws.
  - case_bool_decide as Hopen.
    + left. exists ws. auto.
    + right. split; [|reflexivity]. intros ws' [= <-]. exact Hopen.
  - right. split; [|reflexivity]. intros ws' [=].
Qed.

(** C4: mounting registers one interval of 20000 ms whose body is the
    ping, and no other interval ever exists; in every state the client can
    reach, a tick of a registered interval while the current socket's
    readyState is OPEN sends exactly one frame, the text ping, on that
    socket; and an event adds a frame to what was sent only if it is such
    a tick: a tick with no socket, or with one that is connecting, closing
    or closed, sends nothing, and neither does any other event. *)
Theorem ping_every_20s_only_when_open es e :
  let c := run_events es initial_client in
  (exists id, pingInterval (mount c) = Some id /\
              intervals c !! id = None /\
              intervals (mount c) =
                <[id := mkTimer SendPing 20000]> (intervals c)) /\
  (forall id t, intervals c !! id = Some t -> t = mkTimer SendPing 20000) /\
  (sent (step e c) = sent c \/
   exists id ws,
     e = IntervalFires id /\
     intervals c !! id = Some (mkTimer SendPing 20000) /\
     wsRef c = Some ws /\ sockets c !! ws = Some OPEN /\
     sent (step e c) = (sent c ++ [(ws, "ping")])%list) /\
  (forall id ws,
     is_Some (intervals c !! id) ->
     wsRef c = Some ws -> sockets c !! ws = Some OPEN ->
     sent (step (IntervalFires id) c) = (sent c ++ [(ws, "ping")])%list) /\
  (forall id ws rs,
     wsRef c = Some ws -> sockets c !! ws = Some rs -> rs <> OPEN ->
     sent (step (IntervalFires id) c) = sent c) /\
  (let ws := length (sockets c) in
   let opened := step (SocketOpen ws) (step Mount c) in
   pingInterval opened = Some (next_timer c) /\
   sent (step (IntervalFires (next_timer c)) opened)
   = (sent c ++ [(ws, "ping")])%list).
Proof.
  intros c.
  assert (Hok : timers_ok c) by apply timers_ok_run, timers_ok_initial.
  destruct Hok as [Ht Hi].
  split; [|split; [|split; [|split; [|split]]]].
  - exists (next_timer c). simpl. repeat split.
    destruct (intervals c !! next_timer c) eqn:E; [|reflexivity].
    apply Hi in E. lia.
  - intros tid t H. apply Hi in H. tauto.
  - destruct e as [| |ws|ws now parsed|ws|ws|tid|tid]; simpl.
    + left; reflexivity.
    + left; reflexivity.
    + left. case_bool_decide; reflexivity.
    + left. case_bool_decide; [destruct parsed|]; reflexivity.
    + left. case_bool_decide; reflexivity.
    + left. destruct (sockets c !! ws) as [[]|]; reflexivity.
    + left. destruct (timeouts c !! tid) as [t|] eqn:E; [|reflexivity].
      destruct (Ht _ _ E) as [-> _]. reflexivity.
    + destruct (intervals c !! tid) as [t|] eqn:E; [|left; reflexivity].
      destruct (Hi _ _ E) as [-> _]. simpl.
      destruct (sendPing_spec c) as [(ws & Hws & Hopen & Hsent) | [_ Hsame]].
      * right. exists tid, ws. auto.
      * left. rewrite Hsame. reflexivity.
  - intros tid ws [t Hlook] Hws Hopen. simpl. rewrite Hlook.
    destruct (Hi _ _ Hlook) as [-> _]. simpl. unfold sendPing.
    rewrite Hws, bool_decide_eq_true_2 by exact Hopen. reflexivity.
  - intros tid ws rs Hws Hlook Hne. simpl.
    destruct (intervals c !! tid) as [t|] eqn:E; [|reflexivity].
    destruct (Hi _ _ E) as [-> _]. simpl. unfold sendPing.
    rewrite Hws, bool_decide_eq_false_2; [reflexivity|].
    rewrite Hlook. intros [= ->]. apply Hne. reflexivity.
  - intros ws opened.
    assert (Hlast : (sockets c ++ [CONNECTING])%list !! ws = Some CONNECTING)
      by (apply list_lookup_middle; reflexivity).
    assert (Hopened : opened =
              onopen (set_readyState ws OPEN (step Mount c))).
    { unfold opened. cbn [step]. rewrite bool_decide_eq_true_2; [reflexivity|].
      exact Hlast. }
    rewrite Hopened. split; [reflexivity|].
    cbn. rewrite lookup_insert_eq. cbn. unfold sendPing. cbn.
    rewrite bool_decide_eq_true_2; [reflexivity|].
    fold ws. rewrite insert_app_r_alt by (unfold ws; lia).
    unfold ws. rewrite Nat.sub_diag. apply list_lookup_middle. reflexivity.
Qed.

(** The keep-alive in a short run: a tick before the socket opens sends
    nothing, a tick after it opens sends one ping. *)
Example ping_run :
  sent (run_events [Mount; IntervalFires 1; SocketOpen 0; IntervalFires 1;
                    SocketClose 0; IntervalFires 1] initial_client)
  = [(0, "ping")].
Proof. reflexivity. Qed.

(** ** The compliance rate of the PPE card *)

Section ComplianceRate.

Variable StringToNumber : string -> float.
Variable ArrayToString : list value -> completion string.

Local Abbreviation rate := (CameraCard.complianceRate StringToNumber ArrayToString).

Lemma rate_falsy_total div data t :
  get data "total_detected" = Normal t -> truthy t = false ->
  rate div data = Normal 0%float.
Proof.
  intros Hget Hfalsy. unfold CameraCard.complianceRate.
  rewrite Hget. simpl.
  destruct (get_total _ _ _ "ppe_compliant" Hget) as [c ->].
  destruct (get_total _ _ _ "ppe_non_compliant" Hget) as [n ->].
  simpl. unfold or. rewrite Hfalsy. reflexivity.
Qed.

Lemma rate_guard div1 div2 data :
  (forall a b, PrimFloat.ltb 0%float b = true -> div1 a b = div2 a b) ->
  rate div1 data = rate div2 data.
Proof.
  intros Hdiv. unfold CameraCard.complianceRate.
  destruct (get data "total_detected") as [t|]; [|reflexivity]. simpl.
  destruct (get data "ppe_compliant") as [c|]; [|reflexivity]. simpl.
  destruct (get data "ppe_non_compliant") as [n|]; [|reflexivity]. simpl.
  destruct (ToNumber StringToNumber ArrayToString (or t (VNum 0%float)))
    as [x|]; [|reflexivity]. simpl.
  destruct (PrimFloat.ltb 0%float x) eqn:Hpos; [|reflexivity].
  destruct (ToNumber StringToNumber ArrayToString (or c (VNum 0%float)))
    as [y|]; [|reflexivity]. simpl.
  rewrite (Hdiv y x Hpos). reflexivity.
Qed.

(** A divisor that passed the test [total > 0] is not a zero. *)
Lemma positive_divisor_nonzero b :
  PrimFloat.ltb 0%float b = true -> PrimFloat.eqb b 0%float = false.
Proof.
  rewrite FloatAxioms.ltb_spec, FloatAxioms.eqb_spec.
  change (Prim2SF 0%float) with (S754_zero false).
  destruct (Prim2SF b) as [s | s | | s m e]; try destruct s; simpl;
    try discriminate; reflexivity.
Qed.

(** A positive number is truthy. *)
Lemma positive_truthy x :
  PrimFloat.ltb 0%float x = true -> truthy (VNum x) = true.
Proof.
  intros Hpos. simpl. rewrite (positive_divisor_nonzero x Hpos). simpl.
  revert Hpos. unfold PrimFloat.is_nan.
  rewrite FloatAxioms.ltb_spec, FloatAxioms.eqb_spec.
  change (Prim2SF 0%float) with (S754_zero false).
  destruct (Prim2SF x) as [s | s | | s m e]; try destruct s;
    try discriminate; intros _; try reflexivity.
  unfold SFeqb. cbn [SFcompare]. rewrite Z.compare_refl.
  fold (Pos.compare m m). rewrite Pos.compare_refl. reflexivity.
Qed.

(** With a positive total, the rate is the rounded quotient. *)
Lemma rate_positive div (o : gmap string value) x y :
  o !! "total_detected" = Some (VNum x) ->
  PrimFloat.ltb 0%float x = true ->
  field_or_default_if_falsy o "ppe_compliant" (VNum 0%float) = VNum y ->
  rate div (VObj o) =
    Normal (Math_round (PrimFloat.mul (div y x) 100%float)).
Proof.
  intros Ht Hpos Hc. unfold CameraCard.complianceRate.
  cbn -[truthy or]. rewrite Ht. cbn -[truthy or].
  rewrite or_field_or_default, Hc. unfold or.
  rewrite !(positive_truthy x Hpos). cbn. rewrite Hpos. reflexivity.
Qed.

(** A total that is an object with an own [toString] cannot be compared
    with 0. *)
Lemma rate_object_total div (o t : gmap string value) :
  o !! "total_detected" = Some (VObj t) -> is_Some (t !! "toString") ->
  rate div (VObj o) = TypeError.
Proof.
  intros Ht Hs. unfold CameraCard.complianceRate.
  cbn -[truthy or]. rewrite Ht. cbn.
  rewrite bool_decide_eq_true_2 by exact Hs. reflexivity.
Qed.

Lemma rate_numbers div (o : gmap string value) :
  number_or_absent o "total_detected" = true ->
  number_or_absent o "ppe_compliant" = true ->
  exists r, rate div (VObj o) = Normal r.
Proof.
  unfold number_or_absent, CameraCard.complianceRate. simpl.
  intros Ht Hc.
  assert (Hnum : forall k, match o !! k with
                           | None | Some (VNum _) => true | Some _ => false
                           end = true ->
            exists x, ToNumber StringToNumber ArrayToString
                        (or (default VUndefined (o !! k)) (VNum 0%float))
                      = Normal x).
  { intros k Hk. destruct (o !! k) as [[]|]; try discriminate; simpl.
    - unfold or. destruct (truthy _); simpl; eauto.
    - eauto. }
  destruct (Hnum _ Ht) as [x ->], (Hnum _ Hc) as [y ->]. simpl.
  destruct (PrimFloat.ltb 0%float x); eauto.
Qed.


End ComplianceRate.



(** Three compliant out of four detected is 75 percent; two out of three
    rounds to 67. *)
Example complianceRate_three_of_four :
  CameraCard.complianceRate (fun _ => nan) (fun _ => Normal "") PrimFloat.div
    (obj [("ppe_compliant", VNum 3%float); ("ppe_non_compliant", VNum 1%float);
          ("total_detected", VNum 4%float)]) = Normal 75%float /\
  CameraCard.complianceRate (fun _ => nan) (fun _ => Normal "") PrimFloat.div
    (obj [("ppe_compliant", VNum 2%float); ("total_detected", VNum 3%float)])
    = Normal 67%float.
Proof. split; reflexivity. Qed.

(** ** The event queue and the event store *)

Import Pipeline.

Lemma emit_accepts e q dc :
  length (items q) < capacity q ->
  emit e {| queue := q; DropCounter := dc |} =
    (true, {| queue := {| capacity := capacity q;
                          items := (items q ++ [e])%list |};
              DropCounter := dc |}).
Proof.
  intros H. unfold emit, tryEnqueue. simpl.
  rewrite bool_decide_eq_true_2 by exact H. reflexivity.
Qed.

Lemma emit_rejects e q dc :
  capacity q <= length (items q) ->
  emit e {| queue := q; DropCounter := dc |} =
    (false, {| queue := q; DropCounter := S dc |}).
Proof.
  intros H. unfold emit, tryEnqueue. simpl.
  rewrite bool_decide_eq_false_2 by lia. reflexivity.
Qed.

(** A burst that fits is accepted whole, in order. *)
Lemma emit_all_fits es : forall q dc,
  length (items q) + length es <= capacity q ->
  emit_all es {| queue := q; DropCounter := dc |} =
    (replicate (length es) true,
     {| queue := {| capacity := capacity q;
                    items := (items q ++ es)%list |};
        DropCounter := dc |}).
Proof.
  induction es as [|e es IH]; intros q dc Hfit; simpl.
  - rewrite app_nil_r. destruct q; reflexivity.
  - simpl in Hfit. rewrite emit_accepts by lia.
    rewrite IH by (simpl; rewrite length_app; simpl; lia).
    simpl. rewrite <- app_assoc. reflexivity.
Qed.

(** Once the queue is full, every further attempt of the burst fails. *)
Lemma emit_all_full es : forall q dc,
  capacity q <= length (items q) ->
  emit_all es {| queue := q; DropCounter := dc |} =
    (replicate (length es) false,
     {| queue := q; DropCounter := length es + dc |}).
Proof.
  induction es as [|e es IH]; intros q dc Hfull; simpl; [reflexivity|].
  rewrite emit_rejects by exact Hfull. rewrite IH by exact Hfull.
  do 3 f_equal. lia.
Qed.

Lemma emit_all_app es1 es2 p :
  emit_all (es1 ++ es2) p =
    let r1 := emit_all es1 p in
    let r2 := emit_all es2 r1.2 in
    ((r1.1 ++ r2.1)%list, r2.2).
Proof.
  revert p. induction es1 as [|e es1 IH]; intros p; simpl.
  - destruct (emit_all es2 p); reflexivity.
  - destruct (emit e p) as [ok p1]. rewrite IH. simpl.
    destruct (emit_all es1 p1) as [oks p2]. simpl.
    destruct (emit_all es2 p2); reflexivity.
Qed.

Lemma failures_replicate_true n : failures (replicate n true) = 0.
Proof.
  unfold failures. induction n as [|n IH]; [reflexivity|].
  simpl. rewrite filter_cons_False by discriminate. exact IH.
Qed.

(** C1: when [C + 1] events are offered to an empty queue of capacity [C]
    with no dequeue in between, the first [C] attempts succeed and the
    last one fails, so exactly one attempt fails; [DropCounter] grows by
    exactly 1; and the queue holds the first [C] events in their order of
    arrival, the rejected one being the newest. *)
Theorem burst_over_capacity_drops_newest C es dc :
  length es = S C ->
  let r := emit_all es {| queue := empty_queue C; DropCounter := dc |} in
  r.1 = (replicate C true ++ [false])%list /\
  failures r.1 = 1 /\
  DropCounter r.2 = S dc /\
  items (queue r.2) = take C es /\
  length (items (queue r.2)) = C /\
  capacity (queue r.2) = C.
Proof.
  intros Hlen r.
  assert (Hsplit : es = (take C es ++ drop C es)%list)
    by (symmetry; apply take_drop).
  assert (Htake : length (take C es) = C) by (rewrite length_take; lia).
  assert (Hdrop : length (drop C es) = 1) by (rewrite length_drop; lia).
  assert (Hr : r = ((replicate C true ++ [false])%list,
                    {| queue := {| capacity := C; items := take C es |};
                       DropCounter := S dc |})).
  { unfold r. rewrite Hsplit at 1. rewrite emit_all_app.
    rewrite emit_all_fits by (simpl; lia). simpl.
    rewrite emit_all_full by (simpl; lia).
    simpl. rewrite Htake, Hdrop. reflexivity. }
  rewrite Hr. simpl. repeat split; try assumption.
  unfold failures. rewrite filter_app, length_app.
  fold (failures (replicate C true)). rewrite failures_replicate_true.
  reflexivity.
Qed.

Lemma burst_over_capacity_drops_newest_witness :
  (emit_all [sample_event 1; sample_event 2; sample_event 3]
     {| queue := empty_queue 2; DropCounter := 7 |}).1 = [true; true; false] /\
  DropCounter
    (emit_all [sample_event 1; sample_event 2; sample_event 3]
       {| queue := empty_queue 2; DropCounter := 7 |}).2 = 8 /\
  items (queue
    (emit_all [sample_event 1; sample_event 2; sample_event 3]
       {| queue := empty_queue 2; DropCounter := 7 |}).2)
    = [sample_event 1; sample_event 2].
Proof.
  destruct (burst_over_capacity_drops_newest 2
              [sample_event 1; sample_event 2; sample_event 3] 7 eq_refl)
    as (Hr & _ & Hdc & Hitems & _).
  split; [exact Hr|]. split; [exact Hdc | exact Hitems].
Defined.

Lemma used_ids_app_primary s e :
  used_ids {| primary := (primary s ++ [e])%list; fallback := fallback s;
              next_id := S (next_id s) |}
  ≡ₚ (used_ids s ++ omap id [e])%list.
Proof.
  unfold used_ids. simpl. rewrite !omap_app.
  rewrite <- !app_assoc. apply Permutation_app_head, Permutation_app_comm.
Qed.

Lemma ids_handed_out_append ok now e s :
  ids_handed_out s -> ids_handed_out (append ok now e s).2.
Proof.
  intros [Hpos Hall]. split; [destruct ok; simpl; lia|].
  assert (Hweak : Forall (fun i => 0 < i < S (next_id s)) (used_ids s)).
  { eapply Forall_impl; [exact Hall|]. simpl. intros; lia. }
  destruct ok; simpl.
  - rewrite used_ids_app_primary. apply Forall_app. split; [exact Hweak|].
    simpl. repeat constructor; lia.
  - unfold used_ids in *. simpl. rewrite app_assoc, omap_app.
    apply Forall_app. split; [exact Hweak|].
    simpl. repeat constructor; lia.
Qed.

Lemma ids_handed_out_all ops : forall s,
  ids_handed_out s -> ids_handed_out (append_all ops s).
Proof.
  induction ops as [|[[ok now] e] ops IH]; intros s H; [exact H|].
  apply IH. apply ids_handed_out_append, H.
Qed.

Lemma ids_handed_out_empty : ids_handed_out empty_store.
Proof. split; [simpl; lia | constructor]. Qed.

(** C2: whatever was appended before, an [append] during which the
    primary store fails reports degraded mode, not a fatal error; the
    event goes to the end of the fallback log with the source, type,
    payload and timestamp it came with, and with an identifier that is
    positive and used by no other stored event; the primary log is
    untouched.  Whether or not the primary store fails, the event ends up
    in one of the two logs and nothing stored earlier is lost. *)
Theorem append_falls_back_on_primary_failure ops now e :
  let s := append_all ops empty_store in
  let r := append false now e s in
  r.1 = DegradedMode /\ r.1 <> FatalError /\
  primary r.2 = primary s /\
  (exists stored i,
     fallback r.2 = (fallback s ++ [stored])%list /\
     logical_fields stored = logical_fields e /\
     id stored = Some i /\ 0 < i /\ (i ∉ used_ids s) /\
     created_at stored = Some now) /\
  forall primary_ok,
    let r' := append primary_ok now e s in
    r'.1 <> FatalError /\
    (exists stored, stored ∈ (primary r'.2 ++ fallback r'.2)%list /\
                    logical_fields stored = logical_fields e /\
                    is_Some (id stored)) /\
    primary s `prefix_of` primary r'.2 /\
    fallback s `prefix_of` fallback r'.2.
Proof.
  intros s r.
  assert (Hok : ids_handed_out s)
    by apply ids_handed_out_all, ids_handed_out_empty.
  destruct Hok as [Hpos Hall].
  split; [reflexivity|]. split; [discriminate|]. split; [reflexivity|].
  split.
  - exists (assign (next_id s) now e), (next_id s). simpl.
    repeat split; try assumption.
    intros Hin. rewrite Forall_forall in Hall. apply Hall in Hin. lia.
  - intros primary_ok r'. unfold r'. destruct primary_ok; simpl.
    + split; [discriminate|]. split.
      * exists (assign (next_id s) now e). split; [|split; [reflexivity|eauto]].
        set_solver.
      * split; [apply prefix_app_r|]; reflexivity.
    + split; [discriminate|]. split.
      * exists (assign (next_id s) now e). split; [|split; [reflexivity|eauto]].
        set_solver.
      * split; [|apply prefix_app_r]; reflexivity.
Qed.

(** The store after one good and one failed append. *)
Example append_degraded_run :
  let s := append_all [(true, 10%Z, sample_event 1);
                       (false, 20%Z, sample_event 2)] empty_store in
  (id <$> primary s) = [Some 1] /\ (id <$> fallback s) = [Some 2] /\
  (timestamp <$> fallback s) = [2%Z] /\ next_id s = 3.
Proof. repeat split. Qed.

(** * Further properties of the components *)

(** ** Messages that are not objects, and the three card branches *)

Lemma get_not_nullish message k :
  message <> VNull -> message <> VUndefined ->
  exists v, get message k = Normal v.
Proof. destruct message; simpl; intros; try congruence; eauto. Qed.

Lemma cards_total message :
  message <> VNull -> message <> VUndefined ->
  (exists c, cam0_card message = Normal c) /\
  (exists c, cam10_card message = Normal c) /\
  (exists c, audio_card message = Normal c).
Proof.
  intros Hn Hu. unfold cam0_card, cam10_card, audio_card.
  destruct message; try congruence; simpl; repeat split; eauto.
Qed.

Lemma handleMessage_total now message st :
  message <> VNull -> message <> VUndefined ->
  exists st', handleMessage now message st = Normal st'.
Proof.
  intros Hn Hu.
  destruct (get_not_nullish _ "type" Hn Hu) as [ty Hty].
  destruct (get_not_nullish _ "source" Hn Hu) as [src Hsrc].
  destruct (get_not_nullish _ "timestamp" Hn Hu) as [ts Hts].
  destruct (is_control_type ty) eqn:Hctl.
  - exists st. unfold handleMessage. rewrite Hty. simpl. rewrite Hctl.
    reflexivity.
  - rewrite (handleMessage_event _ _ _ _ _ _ Hty Hsrc Hts Hctl).
    destruct (cards_total _ Hn Hu) as ([c0 ->] & [c10 ->] & [ca ->]).
    destruct (strict_eq_str src "cam0"); [simpl; eauto|].
    destruct (strict_eq_str src "cam10"); [simpl; eauto|].
    destruct (strict_eq_str src "audio"); simpl; eauto.
Qed.

(** X1: [handleMessage] throws exactly for the messages [null] and
    [undefined], on its first property read; the handler of the socket
    catches the error, so such a message, like a frame that is not JSON,
    leaves the whole client as it was. *)
Theorem handleMessage_throws_iff_nullish now message st :
  (handleMessage now message st = TypeError <->
   message = VNull \/ message = VUndefined) /\
  onmessage now VNull st = st /\
  forall ws c, step (SocketMessage ws now (Some VNull)) c = c /\
               step (SocketMessage ws now None) c = c.
Proof.
  split; [split|split].
  - intros Hthrow.
    destruct message; auto;
      (edestruct (handleMessage_total now) as [st' Hok];
       [| | rewrite Hok in Hthrow; discriminate]; discriminate).
  - intros [-> | ->]; reflexivity.
  - reflexivity.
  - intros ws c. simpl. split; case_bool_decide; try reflexivity.
    destruct c as [[]]; reflexivity.
Qed.

(** X2: an event message with source [cam10] replaces the PPE card by the
    message's counts, list of missing items and frame rate, each replaced
    by its default (0, the empty list) when absent or falsy; nothing of
    the previous card is kept and the other two cards are untouched.  A
    message without a [total_detected] therefore gives a compliance rate
    of 0. *)
Theorem cam10_event_updates_card
    (StringToNumber : string -> float)
    (ArrayToString : list value -> completion string)
    now (o : gmap string value) st :
  o !! "source" = Some (VStr "cam10") ->
  is_control_type (default VUndefined (o !! "type")) = false ->
  exists st',
    handleMessage now (VObj o) st = Normal st' /\
    cam10 (data st') =
      obj [("ppe_compliant",
            field_or_default_if_falsy o "ppe_compliant" (VNum 0%float));
           ("ppe_non_compliant",
            field_or_default_if_falsy o "ppe_non_compliant" (VNum 0%float));
           ("total_detected",
            field_or_default_if_falsy o "total_detected" (VNum 0%float));
           ("missing_items",
            field_or_default_if_falsy o "missing_items" (VArr []));
           ("fps", field_or_default_if_falsy o "fps" (VNum 0%float))] /\
    cam0 (data st') = cam0 (data st) /\
    audio (data st') = audio (data st) /\
    (o !! "total_detected" = None ->
     CameraCard.complianceRate StringToNumber ArrayToString PrimFloat.div
       (cam10 (data st')) = Normal 0%float).
Proof.
  intros Hsrc Hctl. eexists. split.
  { erewrite handleMessage_event; try (rewrite get_obj; reflexivity).
    - rewrite Hsrc. simpl. rewrite !or_field_or_default. reflexivity.
    - exact Hctl. }
  simpl. repeat split; try reflexivity.
  intros Hnone. unfold field_or_default_if_falsy at 3. rewrite Hnone.
  reflexivity.
Qed.

Lemma cam10_event_updates_card_witness :
  exists st',
    handleMessage 1700000000000 (VObj cam10_partial) initial_state
      = Normal st' /\
    get (cam10 (data st')) "ppe_compliant" = Normal (VNum 2%float) /\
    get (cam10 (data st')) "missing_items" = Normal (VArr []) /\
    CameraCard.complianceRate (fun _ => nan) (fun _ => Normal "")
      PrimFloat.div (cam10 (data st')) = Normal 0%float.
Proof.
  destruct (cam10_event_updates_card (fun _ => nan) (fun _ => Normal "")
              1700000000000 cam10_partial initial_state eq_refl eq_refl)
    as (st' & Hrun & Hcard & _ & _ & Hrate).
  exists st'. split; [exact Hrun|]. rewrite Hcard.
  split; [reflexivity|]. split; [reflexivity|].
  rewrite <- Hcard. apply Hrate. reflexivity.
Defined.

(** The state after an event message of source [cam0]. *)
Lemma handle_cam0_event now (o : gmap string value) st :
  o !! "source" = Some (VStr "cam0") ->
  is_control_type (default VUndefined (o !! "type")) = false ->
  handleMessage now (VObj o) st =
    Normal {| connected := connected st;
              data := set_cam0
                (obj [("people_count",
                       field_or_default_if_falsy o "people_count"
                         (VNum 0%float));
                      ("accident_detected",
                       field_or_default_if_falsy o "accident_detected"
                         (VBool false));
                      ("accident_type",
                       default VUndefined (o !! "accident_type"));
                      ("fps",
                       field_or_default_if_falsy o "fps" (VNum 0%float))])
                (data st);
              logs := add_log
                (mkLog now (default VUndefined (o !! "timestamp"))
                   (VStr "cam0") (default VUndefined (o !! "type")) (VObj o))
                (logs st) |}.
Proof.
  intros Hsrc Hctl.
  erewrite handleMessage_event; try (rewrite get_obj; reflexivity).
  - rewrite Hsrc. simpl. rewrite !or_field_or_default. reflexivity.
  - exact Hctl.
Qed.

(** The state after an event message of source [cam10]. *)
Lemma handle_cam10_event now (o : gmap string value) st :
  o !! "source" = Some (VStr "cam10") ->
  is_control_type (default VUndefined (o !! "type")) = false ->
  handleMessage now (VObj o) st =
    Normal {| connected := connected st;
              data := set_cam10
                (obj [("ppe_compliant",
                       field_or_default_if_falsy o "ppe_compliant"
                         (VNum 0%float));
                      ("ppe_non_compliant",
                       field_or_default_if_falsy o "ppe_non_compliant"
                         (VNum 0%float));
                      ("total_detected",
                       field_or_default_if_falsy o "total_detected"
                         (VNum 0%float));
                      ("missing_items",
                       field_or_default_if_falsy o "missing_items" (VArr []));
                      ("fps",
                       field_or_default_if_falsy o "fps" (VNum 0%float))])
                (data st);
              logs := add_log
                (mkLog now (default VUndefined (o !! "timestamp"))
                   (VStr "cam10") (default VUndefined (o !! "type")) (VObj o))
                (logs st) |}.
Proof.
  intros Hsrc Hctl.
  erewrite handleMessage_event; try (rewrite get_obj; reflexivity).
  - rewrite Hsrc. simpl. rewrite !or_field_or_default. reflexivity.
  - exact Hctl.
Qed.

(** The state after an event message of source [audio]. *)
Lemma handle_audio_event now (o : gmap string value) st :
  o !! "source" = Some (VStr "audio") ->
  is_control_type (default VUndefined (o !! "type")) = false ->
  handleMessage now (VObj o) st =
    Normal {| connected := connected st;
              data := set_audio
                (obj [("noise_level",
                       field_or_default_if_falsy o "noise_level"
                         (VNum 0%float));
                      ("threshold",
                       field_or_default_if_falsy o "threshold"
                         (VNum 85%float));
                      ("alert",
                       field_or_default_if_falsy o "alert" (VBool false))])
                (data st);
              logs := add_log
                (mkLog now (default VUndefined (o !! "timestamp"))
                   (VStr "audio") (default VUndefined (o !! "type")) (VObj o))
                (logs st) |}.
Proof.
  intros Hsrc Hctl.
  erewrite handleMessage_event; try (rewrite get_obj; reflexivity).
  - rewrite Hsrc. simpl. rewrite !or_field_or_default. reflexivity.
  - exact Hctl.
Qed.

(** X3: an event message with source [cam0] replaces the camera card by
    the message's [people_count], [accident_detected] and [fps], each
    replaced by its default (0, false, 0) when absent or falsy, and by its
    [accident_type] as it is, [undefined] when the message has none;
    nothing of the previous card is kept and the other two cards are
    untouched. *)
Theorem cam0_event_replaces_card now (o : gmap string value) st :
  o !! "source" = Some (VStr "cam0") ->
  is_control_type (default VUndefined (o !! "type")) = false ->
  exists st',
    handleMessage now (VObj o) st = Normal st' /\
    cam0 (data st') =
      obj [("people_count",
            field_or_default_if_falsy o "people_count" (VNum 0%float));
           ("accident_detected",
            field_or_default_if_falsy o "accident_detected" (VBool false));
           ("accident_type", default VUndefined (o !! "accident_type"));
           ("fps", field_or_default_if_falsy o "fps" (VNum 0%float))] /\
    cam10 (data st') = cam10 (data st) /\
    audio (data st') = audio (data st).
Proof.
  intros Hsrc Hctl. eexists. split.
  { erewrite handleMessage_event; try (rewrite get_obj; reflexivity).
    - rewrite Hsrc. simpl. rewrite !or_field_or_default. reflexivity.
    - exact Hctl. }
  simpl. repeat split; reflexivity.
Qed.

Lemma cam0_event_replaces_card_witness :
  exists st',
    handleMessage 1700000000000 (VObj cam0_accident) initial_state
      = Normal st' /\
    get (cam0 (data st')) "accident_type"
      = Normal (VStr "person_lying_down") /\
    get (cam0 (data st')) "people_count" = Normal (VNum 0%float).
Proof.
  destruct (cam0_event_replaces_card 1700000000000 cam0_accident
              initial_state eq_refl eq_refl)
    as (st' & Hrun & Hcard & _).
  exists st'. split; [exact Hrun|]. rewrite Hcard. split; reflexivity.
Defined.

(** ** What an event can change *)

Lemma handleMessage_connected now message st st' :
  handleMessage now message st = Normal st' -> connected st' = connected st.
Proof.
  unfold handleMessage. destruct (get message "type") as [ty|]; [|discriminate].
  simpl. destruct (is_control_type ty); [intros [= <-]; reflexivity|].
  destruct (get message "source") as [src|]; [|discriminate]. simpl.
  match goal with
  | |- context [mbind _ ?d] => destruct d as [d'|]; [|discriminate]
  end.
  simpl. destruct (get message "timestamp"); [|discriminate].
  simpl. intros [= <-]. reflexivity.
Qed.

Lemma onmessage_connected now message st :
  connected (onmessage now message st) = connected st.
Proof.
  unfold onmessage. destruct (handleMessage now message st) eqn:E;
    [eapply handleMessage_connected; exact E | reflexivity].
Qed.

(** X4: a message from the socket changes nothing but the card data and
    the logs: the connection flag, the socket and timer references, the
    sockets, the timers and the frames sent stay as they are.  Every other
    event (mount, unmount, open, close, a timer) leaves the card data and
    the logs as they are, so what the dashboard shows survives a
    disconnection and a reconnection. *)
Theorem events_change_disjoint_state e c :
  match e with
  | SocketMessage _ _ _ =>
      connected (ui (step e c)) = connected (ui c) /\
      wsRef (step e c) = wsRef c /\
      reconnectTimeoutRef (step e c) = reconnectTimeoutRef c /\
      pingInterval (step e c) = pingInterval c /\
      sockets (step e c) = sockets c /\
      timeouts (step e c) = timeouts c /\
      intervals (step e c) = intervals c /\
      sent (step e c) = sent c
  | _ =>
      data (ui (step e c)) = data (ui c) /\
      logs (ui (step e c)) = logs (ui c)
  end.
Proof.
  destruct e as [| |ws|ws now parsed|ws|ws|tid|tid]; simpl.
  - split; reflexivity.
  - split; reflexivity.
  - case_bool_decide; split; reflexivity.
  - case_bool_decide; [destruct parsed|]; simpl;
      repeat split; try reflexivity.
    apply onmessage_connected.
  - case_bool_decide; split; reflexivity.
  - destruct (sockets c !! ws) as [[]|]; split; reflexivity.
  - destruct (timeouts c !! tid) as [[[] d]|]; simpl; try (split; reflexivity).
    unfold sendPing. simpl. destruct (wsRef c); [case_bool_decide|];
      split; reflexivity.
  - destruct (intervals c !! tid) as [[[] d]|]; simpl; try (split; reflexivity).
    unfold sendPing. destruct (wsRef c); [case_bool_decide|];
      split; reflexivity.
Qed.

(** ** The entries of the logs *)

Lemma logged_Some m entry :
  logged m = Some entry ->
  log_id entry = m.1 /\ log_data entry = m.2 /\
  get m.2 "type" = Normal (log_type entry) /\
  get m.2 "source" = Normal (log_source entry) /\
  get m.2 "timestamp" = Normal (log_timestamp entry) /\
  is_control_type (log_type entry) = false.
Proof.
  unfold logged.
  destruct (get m.2 "type") as [ty|]; [|discriminate].
  destruct (get m.2 "source") as [src|]; [|discriminate].
  destruct (get m.2 "timestamp") as [ts|]; [|discriminate].
  destruct (is_control_type ty) eqn:Hctl; [discriminate|].
  intros [= <-]. simpl. repeat split; auto.
Qed.

Lemma sublist_reverse {A} (l1 l2 : list A) :
  l1 `sublist_of` l2 -> reverse l1 `sublist_of` reverse l2.
Proof.
  induction 1 as [|x l1 l2 _ IH|x l1 l2 _ IH]; [constructor| |].
  - rewrite !reverse_cons. apply sublist_app; [exact IH|reflexivity].
  - rewrite reverse_cons. apply sublist_inserts_r, IH.
Qed.

Lemma logged_ids_sublist msgs :
  (log_id <$> omap logged msgs) `sublist_of` msgs.*1.
Proof.
  induction msgs as [|m msgs IH]; simpl; [constructor|].
  destruct (logged m) as [entry|] eqn:E; simpl.
  - apply logged_Some in E. destruct E as [-> _].
    apply sublist_skip, IH.
  - apply sublist_cons, IH.
Qed.

(** X5: the identifiers of the entries in the logs, which the table uses
    as the keys of its rows, are the clock readings at which the messages
    were handled; when these readings are pairwise distinct, no two
    entries of the logs share an identifier. *)
Theorem log_ids_distinct msgs :
  NoDup msgs.*1 ->
  NoDup (log_id <$> logs (run msgs initial_state)) /\
  (log_id <$> logs (run msgs initial_state)) `sublist_of` reverse msgs.*1.
Proof.
  intros Hnd.
  assert (Hsub : (log_id <$> logs (run msgs initial_state))
                   `sublist_of` reverse msgs.*1).
  { rewrite run_logs by (simpl; lia). simpl. rewrite app_nil_r.
    rewrite fmap_take, fmap_reverse.
    etransitivity; [apply sublist_take|].
    apply sublist_reverse, logged_ids_sublist. }
  split; [|exact Hsub].
  eapply sublist_NoDup; [|exact Hsub].
  rewrite reverse_Permutation. exact Hnd.
Qed.

Lemma log_ids_distinct_witness :
  NoDup (log_id <$> logs (run [(1%Z, VObj cam0_scenario);
                               (2%Z, VObj audio_scenario)] initial_state)).
Proof.
  refine (proj1 (log_ids_distinct [(1%Z, VObj cam0_scenario);
                                   (2%Z, VObj audio_scenario)] _)).
  apply (bool_decide_unpack _). vm_compute. reflexivity.
Defined.

(** Two messages handled within the same millisecond get the same
    identifier. *)
Example log_ids_collide :
  log_id <$> logs (run [(1%Z, VObj cam0_scenario);
                        (1%Z, VObj audio_scenario)] initial_state)
  = [1%Z; 1%Z].
Proof. reflexivity. Qed.

(** X6: every entry of the logs holds a message that was received, and
    its [source], [type] and [timestamp] are those of that message, read
    when it was handled; its type is never one of the control types and
    its message is never [null]. *)
Theorem log_entries_agree_with_data msgs entry :
  entry ∈ logs (run msgs initial_state) ->
  (log_id entry, log_data entry) ∈ msgs /\
  get (log_data entry) "source" = Normal (log_source entry) /\
  get (log_data entry) "type" = Normal (log_type entry) /\
  get (log_data entry) "timestamp" = Normal (log_timestamp entry) /\
  is_control_type (log_type entry) = false /\
  log_data entry <> VNull.
Proof.
  rewrite run_logs by (simpl; lia). simpl. rewrite app_nil_r.
  intros Hin. apply subseteq_take in Hin.
  apply elem_of_reverse, list_elem_of_omap in Hin.
  destruct Hin as ([now m] & Hm & Hlogged).
  apply logged_Some in Hlogged. simpl in Hlogged.
  destruct Hlogged as (-> & -> & Hty & Hsrc & Hts & Hctl).
  repeat split; try assumption.
  intros ->. discriminate.
Qed.

Lemma log_entries_agree_with_data_witness :
  get (VObj audio_scenario) "source" = Normal (VStr "audio") /\
  is_control_type (VStr "noise_level") = false.
Proof.
  destruct (log_entries_agree_with_data
              [(1%Z, VObj audio_scenario)]
              (mkLog 1 VUndefined (VStr "audio") (VStr "noise_level")
                 (VObj audio_scenario))
              ltac:(apply list_elem_of_singleton; reflexivity))
    as (_ & Hsrc & _ & _ & Hctl & _).
  split; [exact Hsrc | exact Hctl].
Defined.

(** X7: the table shows its notice instead of rows exactly as long as no
    event message was handled: control messages and [null] never end the
    notice, and it never comes back once an event message arrived. *)
Theorem placeholder_until_first_event msgs :
  LogTable.showsPlaceholder (logs (run msgs initial_state)) = true <->
  Forall (fun m => logged m = None) msgs.
Proof.
  unfold LogTable.showsPlaceholder.
  rewrite run_logs by (simpl; lia). simpl. rewrite app_nil_r.
  rewrite bool_decide_eq_true, length_take, length_reverse.
  assert (H : length (omap logged msgs) = 0 <->
              Forall (fun m => logged m = None) msgs).
  { induction msgs as [|m msgs IH]; simpl.
    - split; [constructor | reflexivity].
    - destruct (logged m) eqn:E; simpl.
      + split; [discriminate|]. intros HF. inversion HF. congruence.
      + rewrite IH. split; [constructor; assumption|].
        intros HF. inversion HF. assumption. }
  rewrite <- H. lia.
Qed.

(** ** One connection at a time *)

Lemma insert_last {A} (l : list A) (x y : A) :
  <[length l := y]> (l ++ [x])%list = (l ++ [y])%list.
Proof.
  replace (length l) with (length l + 0) by lia.
  rewrite insert_app_r. reflexivity.
Qed.

Lemma alter_last {A} (f : A -> A) (l : list A) (x : A) :
  alter f (length l) (l ++ [x])%list = (l ++ [f x])%list.
Proof.
  replace (length l) with (length l + 0) by lia.
  rewrite alter_app_r. reflexivity.
Qed.

(** Among closed sockets followed by one more, a socket that is not
    closed is the last one. *)
Lemma live_is_last (older : list readyState) current ws rs :
  Forall (fun rs => rs = CLOSED) older ->
  (older ++ [current])%list !! ws = Some rs -> rs <> CLOSED ->
  ws = length older /\ rs = current.
Proof.
  intros Hold Hlook Hlive. apply lookup_app_Some in Hlook.
  destruct Hlook as [Hin | [Hge Hlast]].
  - exfalso. apply Hlive. eapply (Forall_lookup_1 _ _ _ _ Hold Hin).
  - destruct (ws - length older) as [|n] eqn:E; simpl in Hlast.
    + injection Hlast as <-. split; [lia | reflexivity].
    + destruct n; discriminate.
Qed.

Lemma mounted_after_mount : mounted (step Mount initial_client).
Proof.
  exists [], CONNECTING, 1. simpl.
  repeat split; try discriminate; try reflexivity; try constructor.
  intros [|]; discriminate.
Qed.

Lemma mounted_step e c :
  is_lifecycle e = false -> mounted c -> mounted (step e c).
Proof.
  intros Hlife
    (older & current & ping & Hs & Hws & Hold & Hconn & Hlive
       & Hdead & Hping & Hint).
  destruct e as [| |ws|ws now parsed|ws|ws|tid|tid]; try discriminate; simpl.
  - (* open *)
    case_bool_decide as Hopen;
      [|exists older, current, ping; repeat split; tauto].
    rewrite Hs in Hopen.
    destruct (live_is_last _ _ _ _ Hold Hopen ltac:(discriminate))
      as [-> <-].
    exists older, OPEN, ping. simpl. rewrite Hs, insert_last.
    repeat split; try assumption; try discriminate; try reflexivity.
    + auto.
    + intros _. apply Hlive. discriminate.
  - (* message *)
    case_bool_decide; [destruct parsed|];
      exists older, current, ping; simpl; repeat split; try tauto.
    all: rewrite onmessage_connected; apply Hconn.
  - (* the server starts closing *)
    case_bool_decide as Hopen;
      [|exists older, current, ping; repeat split; tauto].
    rewrite Hs in Hopen.
    destruct (live_is_last _ _ _ _ Hold Hopen ltac:(discriminate))
      as [-> <-].
    exists older, CLOSING, ping. simpl. rewrite Hs, insert_last.
    repeat split; try assumption; try discriminate; try reflexivity.
    + auto.
    + intros _. apply Hconn. auto.
    + intros _. apply Hlive. discriminate.
  - (* close *)
    destruct (sockets c !! ws) as [rs|] eqn:Hlook;
      [|exists older, current, ping; repeat split; tauto].
    assert (Hcases : rs = CLOSED \/ rs <> CLOSED)
      by (destruct rs; auto; right; discriminate).
    destruct Hcases as [-> | Hne];
      [exists older, current, ping; repeat split; tauto|].
    rewrite Hs in Hlook.
    destruct (live_is_last _ _ _ _ Hold Hlook Hne) as [-> ->].
    assert (Hgoal : mounted (onclose (set_readyState (length older) CLOSED c))).
    { exists older, CLOSED, ping. simpl. rewrite Hs, insert_last.
      repeat split; try assumption; try discriminate; try congruence.
      - intros [|]; discriminate.
      - intros _. exists (next_timer c). split; [reflexivity|].
        rewrite (Hlive Hne). apply insert_empty. }
    destruct current; try exact Hgoal. congruence.
  - (* a time-out fires *)
    destruct (timeouts c !! tid) as [t|] eqn:Hlook;
      [|exists older, current, ping; repeat split; tauto].
    assert (Hcur : current = CLOSED).
    { destruct (decide (current = CLOSED)) as [|Hne]; [assumption|].
      rewrite (Hlive Hne), lookup_empty in Hlook. discriminate. }
    destruct (Hdead Hcur) as (id0 & Href & Htimers).
    rewrite Htimers in Hlook. apply lookup_singleton_Some in Hlook.
    destruct Hlook as [<- <-]. simpl.
    exists (older ++ [current])%list, CONNECTING, ping. simpl.
    rewrite Hs, Htimers. repeat split; try assumption; try discriminate.
    + apply Forall_app. split; [assumption|]. repeat constructor. assumption.
    + intros Hc. apply Hconn in Hc. destruct Hc; congruence.
    + intros [|]; discriminate.
    + intros _. apply delete_singleton_eq.
  - (* the interval fires *)
    destruct (intervals c !! tid) as [t|] eqn:Hlook;
      [|exists older, current, ping; repeat split; tauto].
    rewrite Hint in Hlook. apply lookup_singleton_Some in Hlook.
    destruct Hlook as [<- <-]. simpl. unfold sendPing. rewrite Hws.
    case_bool_decide; exists older, current, ping; repeat split; tauto.
Qed.

Lemma mounted_run es : forall c,
  Forall (fun e => is_lifecycle e = false) es -> mounted c ->
  mounted (run_events es c).
Proof.
  induction es as [|e es IH]; intros c Hes Hc; [exact Hc|].
  inversion Hes; subst. apply IH; [assumption|].
  apply mounted_step; assumption.
Qed.

Lemma filter_closed (older : list readyState) :
  Forall (fun rs => rs = CLOSED) older ->
  filter (fun rs => rs <> CLOSED) older = [].
Proof.
  induction 1 as [|rs l Hrs _ IH]; [reflexivity|].
  rewrite filter_cons_False by (intros Hne; apply Hne, Hrs). exact IH.
Qed.

(** X8: from mounting on, and as long as the component is not unmounted,
    the client has exactly one thing in flight: either one socket that is
    not closed and no pending reconnection, or no such socket and one
    pending reconnection.  A socket that is not closed is always the
    current one, so there are never two live connections, and the
    keep-alive interval is the only interval. *)
Theorem one_connection_or_one_reconnect es :
  Forall (fun e => is_lifecycle e = false) es ->
  let c := run_events es (step Mount initial_client) in
  live_sockets c + size (timeouts c) = 1 /\
  (forall ws rs, sockets c !! ws = Some rs -> rs <> CLOSED ->
                 wsRef c = Some ws) /\
  (forall tid t, timeouts c !! tid = Some t ->
                 reconnectTimeoutRef c = Some tid /\
                 t = mkTimer Reconnect 3000) /\
  size (intervals c) = 1.
Proof.
  intros Hes c.
  destruct (mounted_run es _ Hes mounted_after_mount)
    as (older & current & ping & Hs & Hws & Hold & Hconn & Hlive
          & Hdead & Hping & Hint).
  fold c in Hs, Hws, Hconn, Hlive, Hdead, Hping, Hint.
  split; [|split; [|split]].
  - unfold live_sockets. rewrite Hs, filter_app, filter_closed by assumption.
    simpl. destruct (decide (current = CLOSED)) as [Hc|Hc].
    + destruct (Hdead Hc) as (id0 & _ & ->).
      rewrite filter_cons_False by (intros Hne; apply Hne, Hc).
      rewrite map_size_singleton. reflexivity.
    + rewrite (Hlive Hc), filter_cons_True by exact Hc.
      rewrite map_size_empty. reflexivity.
  - intros ws rs Hlook Hne. rewrite Hs in Hlook.
    destruct (live_is_last _ _ _ _ Hold Hlook Hne) as [-> _]. exact Hws.
  - intros tid t Hlook.
    destruct (decide (current = CLOSED)) as [Hc|Hc].
    + destruct (Hdead Hc) as (id0 & Href & Htimers).
      rewrite Htimers in Hlook. apply lookup_singleton_Some in Hlook.
      destruct Hlook as [<- <-]. auto.
    + rewrite (Hlive Hc), lookup_empty in Hlook. discriminate.
  - rewrite Hint. apply map_size_singleton.
Qed.

Lemma one_connection_or_one_reconnect_witness :
  live_sockets (run_events [SocketOpen 0; SocketClose 0]
                  (step Mount initial_client))
  + size (timeouts (run_events [SocketOpen 0; SocketClose 0]
                      (step Mount initial_client))) = 1.
Proof.
  refine (proj1 (one_connection_or_one_reconnect
                   [SocketOpen 0; SocketClose 0] _)).
  repeat constructor.
Defined.

(** X9: while the component stays mounted, [connected] is true exactly
    when the current socket has opened and its close event is still to
    come, that is when its readyState is OPEN or CLOSING; so the component
    shows the connecting notice exactly when no socket is open or closing,
    and the cards and the table otherwise.  A tick of the keep-alive
    interval sends a ping exactly when a socket is open: always on the
    current socket, never while [connected] is false, and not while the
    current socket is closing although the cards are still shown. *)
Theorem panel_shown_while_open_or_closing es :
  Forall (fun e => is_lifecycle e = false) es ->
  let c := run_events es (step Mount initial_client) in
  (connected (ui c) = true <->
   exists ws, wsRef c = Some ws /\
              (sockets c !! ws = Some OPEN \/ sockets c !! ws = Some CLOSING)) /\
  (render (ui c) = Connecting <->
   (OPEN ∉ sockets c) /\ (CLOSING ∉ sockets c)) /\
  (render (ui c) <> Connecting ->
   render (ui c) =
     Panel (cam0 (data (ui c))) (cam10 (data (ui c))) (audio (data (ui c)))
           (logs (ui c))) /\
  exists ping,
    pingInterval c = Some ping /\
    (OPEN ∈ sockets c ->
     connected (ui c) = true /\
     exists ws, wsRef c = Some ws /\ sockets c !! ws = Some OPEN /\
                sent (step (IntervalFires ping) c)
                = (sent c ++ [(ws, "ping")])%list) /\
    (OPEN ∉ sockets c ->
     forall tid, sent (step (IntervalFires tid) c) = sent c) /\
    (connected (ui c) = false ->
     forall tid, sent (step (IntervalFires tid) c) = sent c).
Proof.
  intros Hes c.
  destruct (mounted_run es _ Hes mounted_after_mount)
    as (older & current & ping & Hs & Hws & Hold & Hconn & Hlive
          & Hdead & Hping & Hint).
  fold c in Hs, Hws, Hconn, Hlive, Hdead, Hping, Hint.
  assert (Hlast : sockets c !! length older = Some current).
  { rewrite Hs. apply list_lookup_middle. reflexivity. }
  assert (Hin : forall rs, rs <> CLOSED -> rs ∈ sockets c <-> current = rs).
  { intros rs Hrs. rewrite Hs, elem_of_app, list_elem_of_singleton.
    split; [|auto]. intros [Hold' | ->]; [|reflexivity].
    rewrite Forall_forall in Hold. apply Hold in Hold'. congruence. }
  assert (Hquiet : OPEN ∉ sockets c ->
            forall tid, sent (step (IntervalFires tid) c) = sent c).
  { intros Hno tid. simpl.
    destruct (intervals c !! tid) as [t|] eqn:Hlook; [|reflexivity].
    rewrite Hint in Hlook. apply lookup_singleton_Some in Hlook.
    destruct Hlook as [_ <-]. simpl. unfold sendPing. rewrite Hws, Hlast.
    case_bool_decide as Ho; [|reflexivity].
    injection Ho as Ho. exfalso. apply Hno. apply Hin; [discriminate|].
    exact Ho. }
  split; [|split; [|split]].
  - rewrite Hconn. split.
    + intros Hc. exists (length older). split; [exact Hws|].
      rewrite Hlast. destruct Hc as [-> | ->]; auto.
    + intros (ws & Hws' & Hlook). rewrite Hws in Hws'.
      injection Hws' as <-. rewrite Hlast in Hlook.
      destruct Hlook as [[= ->] | [= ->]]; auto.
  - unfold render.
    rewrite (Hin OPEN ltac:(discriminate)), (Hin CLOSING ltac:(discriminate)).
    destruct (connected (ui c)) eqn:Hc; simpl.
    + split; [discriminate|]. intros [Ho Hcl].
      destruct (proj1 Hconn eq_refl); contradiction.
    + split; [|reflexivity]. intros _.
      split; intros Hcur; (assert (false = true) by (apply Hconn; auto));
        discriminate.
  - unfold render. destruct (connected (ui c)); simpl; congruence.
  - exists ping. split; [exact Hping|]. split; [|split].
    + intros Ho. apply Hin in Ho; [|discriminate].
      split; [apply Hconn; auto|].
      exists (length older). split; [exact Hws|].
      split; [rewrite Hlast, Ho; reflexivity|].
      simpl. rewrite Hint, lookup_singleton_eq. simpl. unfold sendPing.
      rewrite Hws, Hlast, Ho. reflexivity.
    + exact Hquiet.
    + intros Hc. apply Hquiet. intros Ho. apply Hin in Ho; [|discriminate].
      assert (connected (ui c) = true) by (apply Hconn; auto). congruence.
Qed.

Lemma panel_shown_while_open_or_closing_witness :
  render (ui (run_events [SocketOpen 0; SocketClosing 0]
                (step Mount initial_client)))
    = Panel (cam0 initial_data) (cam10 initial_data) (audio initial_data) []
  /\ render (ui (run_events [SocketOpen 0; SocketClosing 0; SocketClose 0]
                   (step Mount initial_client))) = Connecting.
Proof.
  split.
  - refine (proj1 (proj2 (proj2 (panel_shown_while_open_or_closing
                                   [SocketOpen 0; SocketClosing 0] _))) _).
    + repeat constructor.
    + discriminate.
  - refine (proj2 (proj1 (proj2 (panel_shown_while_open_or_closing
                                   [SocketOpen 0; SocketClosing 0;
                                    SocketClose 0] _))) _).
    + repeat constructor.
    + split; apply (bool_decide_unpack _); reflexivity.
Defined.

(** X10: unmounting a component that was mounted removes the keep-alive
    interval and the pending reconnection, if there is one, and starts
    closing the current socket: afterwards no timer is registered, no
    socket is connecting or open, and no timer event sends a frame. *)
Theorem unmount_cancels_timers_and_closes es :
  Forall (fun e => is_lifecycle e = false) es ->
  let c := step Unmount (run_events es (step Mount initial_client)) in
  intervals c = ∅ /\ timeouts c = ∅ /\
  Forall (fun rs => rs = CLOSED \/ rs = CLOSING) (sockets c) /\
  forall tid, step (IntervalFires tid) c = c /\
              step (TimeoutFires tid) c = c.
Proof.
  intros Hes c.
  pose proof (mounted_run es _ Hes mounted_after_mount) as Hm.
  unfold c. clear c.
  remember (run_events es (step Mount initial_client)) as c0 eqn:Ec0.
  clear Ec0. set (c := step Unmount c0).
  destruct Hm
    as (older & current & ping & Hs & Hws & Hold & Hconn & Hlive
          & Hdead & Hping & Hint).
  assert (Hi : intervals c = ∅).
  { unfold c. simpl. rewrite Hping, Hint. apply delete_singleton_eq. }
  assert (Ht : timeouts c = ∅).
  { unfold c. simpl. destruct (decide (current = CLOSED)) as [Hc|Hc].
    - destruct (Hdead Hc) as (id0 & -> & ->). apply delete_singleton_eq.
    - rewrite (Hlive Hc). destruct (reconnectTimeoutRef _);
        [apply delete_empty | reflexivity]. }
  assert (Hsock : Forall (fun rs => rs = CLOSED \/ rs = CLOSING) (sockets c)).
  { unfold c. simpl. rewrite Hws, Hs, alter_last.
    apply Forall_app. split.
    - eapply Forall_impl; [exact Hold|]. simpl. auto.
    - apply Forall_singleton. destruct current; simpl; auto. }
  clearbody c.
  split; [exact Hi|]. split; [exact Ht|]. split; [exact Hsock|].
  intros tid. simpl. rewrite Hi, Ht, !lookup_empty. split; reflexivity.
Qed.

Lemma unmount_cancels_timers_and_closes_witness :
  intervals (step Unmount (run_events [SocketOpen 0]
                             (step Mount initial_client))) = ∅ /\
  sockets (step Unmount (run_events [SocketOpen 0]
                           (step Mount initial_client))) = [CLOSING].
Proof.
  split.
  - refine (proj1 (unmount_cancels_timers_and_closes [SocketOpen 0] _)).
    repeat constructor.
  - reflexivity.
Defined.

(** X11: unmounting does not detach the handlers of the socket it closes.
    When the socket was connecting or open at the time of the unmount, the
    close event that follows still runs [onclose]: it registers a
    reconnection after 3000 ms that no cleanup is left to cancel, and when
    that timer fires the unmounted component constructs a new socket and
    makes it the current one. *)
Theorem close_after_unmount_reconnects es ws rs :
  Forall (fun e => is_lifecycle e = false) es ->
  let c := run_events es (step Mount initial_client) in
  sockets c !! ws = Some rs -> rs <> CLOSED ->
  let c1 := step Unmount c in
  let c2 := step (SocketClose ws) c1 in
  timeouts c1 = ∅ /\
  sockets c1 !! ws = Some CLOSING /\
  exists tid,
    timeouts c2 = {[ tid := mkTimer Reconnect 3000 ]} /\
    connected (ui c2) = false /\
    let c3 := step (TimeoutFires tid) c2 in
    sockets c3 = (sockets c2 ++ [CONNECTING])%list /\
    wsRef c3 = Some (length (sockets c2)) /\
    intervals c3 = ∅.
Proof.
  intros Hes.
  pose proof (mounted_run es _ Hes mounted_after_mount) as Hm.
  remember (run_events es (step Mount initial_client)) as c0 eqn:Ec.
  clear Ec. intros c Hlook Hne c1 c2. subst c.
  rename c0 into c.
  destruct Hm
    as (older & current & ping & Hs & Hws & Hold & Hconn & Hlive
          & Hdead & Hping & Hint).
  rewrite Hs in Hlook.
  destruct (live_is_last _ _ _ _ Hold Hlook Hne) as [-> ->].
  assert (Hs1 : sockets c1 = (older ++ [CLOSING])%list).
  { unfold c1. simpl. rewrite Hws, Hs, alter_last.
    destruct current; simpl; congruence. }
  assert (Ht1 : timeouts c1 = ∅).
  { unfold c1. simpl. rewrite (Hlive Hne).
    destruct (reconnectTimeoutRef c); [apply delete_empty | reflexivity]. }
  assert (Hi1 : intervals c1 = ∅).
  { unfold c1. simpl. rewrite Hping, Hint. apply delete_singleton_eq. }
  assert (Hl1 : sockets c1 !! length older = Some CLOSING).
  { rewrite Hs1. apply list_lookup_middle. reflexivity. }
  split; [exact Ht1|]. split; [exact Hl1|].
  clearbody c1.
  assert (Hc2 : c2 = onclose (set_readyState (length older) CLOSED c1)).
  { unfold c2. simpl. rewrite Hl1. reflexivity. }
  exists (next_timer c1). rewrite Hc2. simpl.
  rewrite Ht1, lookup_insert_eq. simpl.
  repeat split; try reflexivity; try exact Hi1.
Qed.

Lemma close_after_unmount_reconnects_witness :
  exists tid,
    timeouts (step (SocketClose 0)
                (step Unmount (run_events [SocketOpen 0]
                                 (step Mount initial_client))))
      = {[ tid := mkTimer Reconnect 3000 ]} /\
    sockets (step (TimeoutFires tid)
               (step (SocketClose 0)
                  (step Unmount (run_events [SocketOpen 0]
                                   (step Mount initial_client)))))
      = [CLOSED; CONNECTING].
Proof.
  destruct (close_after_unmount_reconnects [SocketOpen 0] 0 OPEN
              ltac:(repeat constructor) eq_refl ltac:(discriminate))
    as (_ & _ & tid & Ht & _ & Hs & _).
  exists tid. split; [exact Ht | exact Hs].
Defined.

(** ** The labels of the camera card *)

Section CameraLabels.

Variable Number_toFixed : float -> nat -> string.

Local Abbreviation fpsLabel := (CameraCard.fpsLabel Number_toFixed).

Lemma truthy_VStr s : truthy (VStr s) = true <-> s <> "".
Proof.
  simpl. rewrite negb_true_iff. split.
  - intros H ->. discriminate.
  - intros H. apply String.eqb_neq. exact H.
Qed.

Lemma fpsLabel_obj (o : gmap string value) :
  fpsLabel (VObj o) =
    text ← CameraCard.optional_toFixed1 Number_toFixed
             (default VUndefined (o !! "fps"));
    Normal (or text (VStr "0.0")).
Proof. reflexivity. Qed.

(** X12: the frame rate shown by a camera card is never an empty text: it
    is [0.0] when the card has no [fps] (or a [null] one), the one-decimal
    text of a number otherwise; any other [fps] makes the label throw.  As
    [handleMessage] stores the [fps] of a message without checking its
    type, the label of the cam0 card throws after a message exactly when
    that message carries a truthy [fps] that is not a number. *)
Theorem fps_label_never_empty (o : gmap string value) now st :
  fpsLabel (VObj o) <> Normal (VStr "") /\
  (number_or_absent o "fps" = true ->
   exists text, fpsLabel (VObj o) = Normal (VStr text) /\ text <> "") /\
  (o !! "fps" = None \/ o !! "fps" = Some VNull ->
   fpsLabel (VObj o) = Normal (VStr "0.0")) /\
  (o !! "source" = Some (VStr "cam0") ->
   is_control_type (default VUndefined (o !! "type")) = false ->
   exists st',
     handleMessage now (VObj o) st = Normal st' /\
     (fpsLabel (cam0 (data st')) = TypeError <->
      exists v, o !! "fps" = Some v /\ truthy v = true /\
                is_number v = false)).
Proof.
  assert (Hnum : forall x, exists text,
            or (VStr (Number_toFixed x 1)) (VStr "0.0") = VStr text /\
            text <> "").
  { intros x. unfold or.
    destruct (truthy (VStr (Number_toFixed x 1))) eqn:E.
    - exists (Number_toFixed x 1). split; [reflexivity|].
      apply truthy_VStr, E.
    - exists "0.0". split; [reflexivity | discriminate]. }
  split; [|split; [|split]].
  - rewrite fpsLabel_obj.
    destruct (default VUndefined (o !! "fps")); simpl; try discriminate.
    destruct (Hnum x) as (text & -> & Hne). congruence.
  - unfold number_or_absent. rewrite fpsLabel_obj.
    destruct (o !! "fps") as [[]|]; try discriminate; intros _; simpl.
    + destruct (Hnum x) as (text & -> & Hne). eauto.
    + exists "0.0". split; [reflexivity | discriminate].
  - rewrite fpsLabel_obj. intros [-> | ->]; reflexivity.
  - intros Hsrc Hctl.
    eexists. split; [apply handle_cam0_event; assumption|].
    unfold CameraCard.fpsLabel, field_or_default_if_falsy. simpl.
    destruct (o !! "fps") as [v|]; simpl.
    + destruct (truthy v) eqn:Htruthy.
      * destruct v; simpl in *; try discriminate;
          (split; [intros H; try discriminate; eauto
                  | intros (v' & [= <-] & _ & Hn); try discriminate;
                    reflexivity]).
      * simpl. split; [discriminate|].
        intros (v' & [= <-] & Ht & _). congruence.
    + split; [discriminate | intros (v' & [=] & _)].
Qed.

End CameraLabels.

Lemma fps_label_never_empty_witness :
  exists st',
    handleMessage 1700000000000 (VObj cam0_fps_text) initial_state
      = Normal st' /\
    CameraCard.fpsLabel (fun _ _ => "10.0") (cam0 (data st')) = TypeError.
Proof.
  destruct (proj2 (proj2 (proj2
              (fps_label_never_empty (fun _ _ => "10.0") cam0_fps_text
                 1700000000000 initial_state))) eq_refl eq_refl)
    as (st' & Hrun & Hthrows).
  exists st'. split; [exact Hrun|]. apply Hthrows.
  exists (VStr "10"). repeat split; reflexivity.
Defined.

Lemma replace_underscores_length s :
  String.length (CameraCard.replace_underscores s) = String.length s.
Proof. induction s as [|c s IH]; simpl; [reflexivity | rewrite IH; reflexivity]. Qed.

Lemma replace_underscores_get s : forall n,
  String.get n (CameraCard.replace_underscores s) =
    (fun c => if Ascii.eqb c "_"%char then " "%char else c) <$> String.get n s.
Proof.
  induction s as [|c s IH]; intros n; simpl; [reflexivity|].
  destruct n; [reflexivity | apply IH].
Qed.


(** The accident type of the camera worker, as the card shows it. *)
Example accident_type_line_run :
  CameraCard.accidentTypeLine (VObj cam0_accident)
  = Normal (Some (Element "person lying down")).
Proof. reflexivity. Qed.

(** ** The line of missing items of the PPE card *)

Section MissingItems.

Variable StringToNumber : string -> float.
Variable ArrayToString : list value -> completion string.
Variable Array_join : list value -> string -> completion string.

Local Abbreviation missingLine :=
  (CameraCard.missingLine StringToNumber ArrayToString Array_join).


End MissingItems.

(** ** The audio card *)

Lemma SFcompare_antisym x y :
  SFcompare y x = option_map CompOpp (SFcompare x y).
Proof.
  destruct x as [sx | sx | | sx mx ex], y as [sy | sy | | sy my ey];
    try destruct sx; try destruct sy; try reflexivity;
    cbn [SFcompare option_map]; f_equal;
    rewrite (Z.compare_antisym ex ey);
    destruct (ex ?= ey)%Z; cbn [CompOpp]; try reflexivity;
    fold (Pos.compare my mx); fold (Pos.compare mx my);
    rewrite (Pos.compare_antisym mx my);
    destruct (mx ?= my)%positive; reflexivity.
Qed.

(** Of two numbers, the first is at most the second unless the second is
    below the first. *)
Lemma not_ltb_leb x y :
  PrimFloat.is_nan x = false -> PrimFloat.is_nan y = false ->
  PrimFloat.ltb y x = false -> PrimFloat.leb x y = true.
Proof.
  unfold PrimFloat.is_nan.
  rewrite !FloatAxioms.eqb_spec, FloatAxioms.ltb_spec, FloatAxioms.leb_spec.
  unfold SFeqb, SFltb, SFleb. intros Hx Hy.
  assert (exists c, SFcompare (Prim2SF x) (Prim2SF y) = Some c) as [c Hc].
  { destruct (Prim2SF x) as [sx | sx | | sx mx ex],
             (Prim2SF y) as [sy | sy | | sy my ey];
      try discriminate; cbn [SFcompare]; eauto. }
  rewrite (SFcompare_antisym (Prim2SF x) (Prim2SF y)), Hc.
  destruct c; cbn; congruence.
Qed.

Lemma Math_min_100 y :
  PrimFloat.is_nan y = false ->
  Math_min y 100%float = if PrimFloat.ltb 100%float y then 100%float else y.
Proof.
  intros Hy. unfold Math_min. rewrite Hy.
  change (PrimFloat.is_nan 100%float) with false. cbn [orb].
  unfold min_step at 2.
  change (PrimFloat.is_zero PrimFloat.infinity) with false.
  rewrite andb_false_r. cbn [andb].
  unfold min_step.
  change (PrimFloat.is_zero 100%float) with false. cbn [andb].
  destruct (PrimFloat.ltb y PrimFloat.infinity) eqn:Hinf; [reflexivity|].
  change (PrimFloat.ltb 100%float PrimFloat.infinity) with true. cbn iota.
  assert (Hle : PrimFloat.leb PrimFloat.infinity y = true)
    by (apply not_ltb_leb; [reflexivity | exact Hy | exact Hinf]).
  destruct (PrimFloat.ltb 100%float y) eqn:Hlt; [reflexivity|].
  exfalso.
  assert (Hle2 : PrimFloat.leb y 100%float = true)
    by (apply not_ltb_leb; [exact Hy | reflexivity | exact Hlt]).
  revert Hle Hle2 Hy. unfold PrimFloat.is_nan.
  rewrite !FloatAxioms.leb_spec, FloatAxioms.eqb_spec.
  change (Prim2SF PrimFloat.infinity) with (S754_infinity false).
  destruct (Prim2SF y) as [s | s | | s m e]; try destruct s;
    discriminate.
Qed.

Section AudioRender.

Variable StringToNumber : string -> float.
Variable NumberToString : float -> string.
Variable ArrayToString : list value -> completion string.
Variable string_lt : string -> string -> bool.
Variable Number_toFixed : float -> nat -> string.

Local Abbreviation percentage :=
  (AudioCard.percentage StringToNumber ArrayToString).
Local Abbreviation progressClass :=
  (AudioCard.progressClass StringToNumber ArrayToString string_lt).
Local Abbreviation render :=
  (AudioCard.render StringToNumber NumberToString ArrayToString string_lt
     Number_toFixed).

(** X15: the width of the noise bar, in percent, never exceeds 100: it is
    100 as soon as the level scaled to 120 dB is above 100, the scaled
    level itself otherwise, and not a number only when the level is not
    one. *)
Theorem bar_width_at_most_100 r p :
  percentage r = Normal p ->
  (PrimFloat.is_nan p = true \/ PrimFloat.leb p 100%float = true) /\
  (forall x, AudioCard.noiseLevel r = VNum x -> PrimFloat.is_nan x = false ->
             PrimFloat.is_nan (PrimFloat.mul (PrimFloat.div x 120%float)
                                 100%float) = false ->
             PrimFloat.leb p 100%float = true).
Proof.
  unfold AudioCard.percentage.
  destruct (ToNumber StringToNumber ArrayToString (AudioCard.noiseLevel r)) as [n|] eqn:Hn;
    [|discriminate].
  simpl. intros [= <-].
  set (y := PrimFloat.mul (PrimFloat.div n 120%float) 100%float).
  assert (Hbound : PrimFloat.is_nan y = false ->
                   PrimFloat.leb (Math_min y 100%float) 100%float = true).
  { intros Hy. rewrite (Math_min_100 y Hy).
    destruct (PrimFloat.ltb 100%float y) eqn:Hlt; [reflexivity|].
    apply not_ltb_leb; [exact Hy | reflexivity | exact Hlt]. }
  split.
  - destruct (PrimFloat.is_nan y) eqn:Hy; [|right; apply Hbound; reflexivity].
    left. unfold Math_min. rewrite Hy. reflexivity.
  - intros x Hx _ Hy. rewrite Hx in Hn. injection Hn as <-.
    apply Hbound. exact Hy.
Qed.

Lemma read_obj (o : gmap string value) :
  AudioCard.read (VObj o) =
    Normal {| AudioCard.noiseLevel := field_or_default_if_falsy o "noise_level"
                              (VNum 0%float);
              AudioCard.threshold := field_or_default_if_falsy o "threshold"
                             (VNum 85%float);
              AudioCard.alert := field_or_default_if_falsy o "alert" (VBool false) |}.
Proof.
  unfold AudioCard.read. simpl. rewrite !or_field_or_default. reflexivity.
Qed.

Lemma number_field_or_default (o : gmap string value) k d :
  number_or_absent o k = true -> is_number d = true ->
  exists x, field_or_default_if_falsy o k d = VNum x.
Proof.
  unfold number_or_absent, field_or_default_if_falsy.
  destruct d; try discriminate.
  destruct (o !! k) as [[]|]; try discriminate; intros _ _; eauto.
  destruct (truthy _); eauto.
Qed.

(** X16: the audio card renders without an error for every card object
    whose [noise_level] and [threshold] are numbers or missing: its
    headline is the level, or 0, with one decimal, the threshold it
    compares with is never falsy, so the threshold label is always shown,
    the class of the bar is one of [danger], [warning] and none, and the
    banner and the alert class follow the [alert] field alone, whatever
    the level.  A [noise_level] that is truthy and not a number, such as a
    numeric text, makes the card throw. *)
Theorem audio_card_renders_numbers (o : gmap string value) :
  (number_or_absent o "noise_level" = true ->
   number_or_absent o "threshold" = true ->
   exists card x label,
     render (VObj o) = Normal card /\
     field_or_default_if_falsy o "noise_level" (VNum 0%float) = VNum x /\
     AudioCard.statValue card = Number_toFixed x 1 /\
     AudioCard.thresholdLabel card = Element label /\
     truthy (AudioCard.thresholdTick card) = true /\
     (AudioCard.fillClass card = "danger" \/ AudioCard.fillClass card = "warning" \/
      AudioCard.fillClass card = "") /\
     AudioCard.banner card = truthy (default VUndefined (o !! "alert")) /\
     AudioCard.cardAlert card = AudioCard.banner card) /\
  (forall v, o !! "noise_level" = Some v -> truthy v = true ->
             is_number v = false -> render (VObj o) = TypeError).
Proof.
  split.
  - intros Hn Ht.
    destruct (number_field_or_default o "noise_level" (VNum 0%float) Hn eq_refl)
      as [x Hx].
    destruct (number_field_or_default o "threshold" (VNum 85%float) Ht eq_refl)
      as [t Ht'].
    assert (Htruthy : truthy (VNum t) = true).
    { rewrite <- Ht'. unfold field_or_default_if_falsy.
      destruct (o !! "threshold") as [v|]; [|reflexivity].
      destruct (truthy v) eqn:E; [exact E | reflexivity]. }
    assert (Halert : truthy (field_or_default_if_falsy o "alert" (VBool false))
                     = truthy (default VUndefined (o !! "alert"))).
    { unfold field_or_default_if_falsy.
      destruct (o !! "alert") as [v|]; [|reflexivity]. simpl.
      destruct (truthy v) eqn:E; [exact E | reflexivity]. }
    unfold AudioCard.render. rewrite read_obj. cbn -[truthy].
    rewrite Hx, Ht'. unfold AudioCard.percentage, AudioCard.progressClass.
    cbn -[truthy]. rewrite Htruthy, Halert. cbn -[truthy].
    destruct (PrimFloat.leb t x); cbn -[truthy].
    + eexists _, x, _. repeat split; try reflexivity; auto.
    + destruct (PrimFloat.leb _ x); cbn -[truthy];
        eexists _, x, _; repeat split; try reflexivity; auto.
  - intros v Hv Htruthy Hnum.
    unfold AudioCard.render. rewrite read_obj. simpl.
    assert (Hlevel : field_or_default_if_falsy o "noise_level" (VNum 0%float)
                     = v).
    { unfold field_or_default_if_falsy. rewrite Hv, Htruthy. reflexivity. }
    rewrite Hlevel.
    destruct (AudioCard.percentage _ _ _) as [p|]; [|reflexivity]. simpl.
    destruct (AudioCard.progressClass _ _ _ _) as [cls|]; [|reflexivity].
    simpl. destruct v; try discriminate; reflexivity.
Qed.

End AudioRender.

Lemma bar_width_at_most_100_witness :
  PrimFloat.leb 100%float 100%float = true.
Proof.
  refine (proj2 (bar_width_at_most_100 (fun _ => nan) (fun _ => Normal "")
                   {| AudioCard.noiseLevel := VNum 150%float;
                      AudioCard.threshold := VNum 85%float;
                      AudioCard.alert := VBool true |} 100%float _)
            150%float _ _ _); reflexivity.
Defined.

(** A level of 87.5 dB against the threshold of 85 dB, with the alert
    raised: the bar is in the danger class and about 73 percent wide. *)
Example audio_card_scenario :
  AudioCard.render (fun _ => nan)
    (fun x => if PrimFloat.eqb x 85%float then "85" else "72.91666666666667")
    (fun _ => Normal "")
    (fun _ _ => false) (fun _ _ => "87.5")
    (obj [("noise_level", VNum 87.5%float); ("threshold", VNum 85%float);
          ("alert", VBool true)])
  = Normal {| AudioCard.cardAlert := true; AudioCard.statValue := "87.5";
              AudioCard.thresholdLabel := Element " (Threshold: 85 dB)";
              AudioCard.fillClass := "danger";
              AudioCard.fillWidth := "72.91666666666667%";
              AudioCard.banner := true;
              AudioCard.thresholdTick := VNum 85%float |}.
Proof. reflexivity. Qed.

(** ** The details column of the table and the cards *)

Lemma or_field_or_default_idem (o : gmap string value) k d :
  or (field_or_default_if_falsy o k d) d = or (default VUndefined (o !! k)) d.
Proof.
  unfold field_or_default_if_falsy, or.
  destruct (o !! k) as [v|]; simpl.
  - destruct (truthy v) eqn:E; [rewrite E; reflexivity|].
    destruct (truthy d); reflexivity.
  - destruct (truthy d); reflexivity.
Qed.

Lemma truthy_field_or_false (o : gmap string value) k :
  truthy (field_or_default_if_falsy o k (VBool false))
  = truthy (default VUndefined (o !! k)).
Proof.
  unfold field_or_default_if_falsy.
  destruct (o !! k) as [v|]; [|reflexivity]. simpl.
  destruct (truthy v) eqn:E; [exact E | reflexivity].
Qed.

Section Details.

Variable ToString : value -> completion string.
Variable Number_toFixed : float -> nat -> string.
Variable JSON_stringify : value -> string.
Variable String_substring : string -> nat -> nat -> string.

Local Abbreviation formatData :=
  (LogTable.formatData ToString Number_toFixed JSON_stringify
     String_substring).

(** X17: for an event message of one of the three known sources, the text
    the table shows in its details column is the text it would show for
    the card that [handleMessage] stored from the same message, so the
    newest row of the table and the card of that source never disagree
    about a count, a level or an alarm. *)
Theorem details_agree_with_card now (o : gmap string value) st source :
  o !! "source" = Some (VStr source) ->
  source = "cam0" \/ source = "cam10" \/ source = "audio" ->
  is_control_type (default VUndefined (o !! "type")) = false ->
  exists st' entry,
    handleMessage now (VObj o) st = Normal st' /\
    head (logs st') = Some entry /\
    log_source entry = VStr source /\
    log_data entry = VObj o /\
    formatData entry =
      formatData (mkLog (log_id entry) (log_timestamp entry)
                    (log_source entry) (log_type entry)
                    (card_of source (data st'))).
Proof.
  intros Hsrc Hknown Hctl.
  destruct Hknown as [-> | [-> | ->]]; eexists _, _.
  - split; [apply handle_cam0_event; assumption|].
    split; [reflexivity|]. split; [reflexivity|]. split; [reflexivity|].
    unfold LogTable.formatData. cbn -[truthy or field_or_default_if_falsy].
    repeat (rewrite lookup_insert_eq || rewrite lookup_insert_ne by discriminate).
    cbn -[truthy or field_or_default_if_falsy].
    rewrite or_field_or_default_idem, truthy_field_or_false. reflexivity.
  - split; [apply handle_cam10_event; assumption|].
    split; [reflexivity|]. split; [reflexivity|]. split; [reflexivity|].
    unfold LogTable.formatData. cbn -[truthy or field_or_default_if_falsy].
    repeat (rewrite lookup_insert_eq || rewrite lookup_insert_ne by discriminate).
    cbn -[truthy or field_or_default_if_falsy].
    rewrite !or_field_or_default_idem. reflexivity.
  - split; [apply handle_audio_event; assumption|].
    split; [reflexivity|]. split; [reflexivity|]. split; [reflexivity|].
    unfold LogTable.formatData. cbn -[truthy or field_or_default_if_falsy].
    repeat (rewrite lookup_insert_eq || rewrite lookup_insert_ne by discriminate).
    cbn -[truthy or field_or_default_if_falsy].
    rewrite or_field_or_default_idem, truthy_field_or_false. reflexivity.
Qed.

End Details.

Lemma details_agree_with_card_witness :
  exists st' entry,
    handleMessage 1700000000000 (VObj cam0_scenario) initial_state
      = Normal st' /\
    head (logs st') = Some entry /\
    log_source entry = VStr "cam0" /\
    log_data entry = VObj cam0_scenario /\
    LogTable.formatData (fun _ => Normal "5") (fun _ _ => "")
      (fun _ => cam7_json) ascii_substring entry =
    LogTable.formatData (fun _ => Normal "5") (fun _ _ => "")
      (fun _ => cam7_json) ascii_substring
      (mkLog (log_id entry) (log_timestamp entry) (log_source entry)
         (log_type entry) (card_of "cam0" (data st'))).
Proof.
  exact (details_agree_with_card (fun _ => Normal "5") (fun _ _ => "")
           (fun _ => cam7_json) ascii_substring 1700000000000 cam0_scenario
           initial_state
           "cam0" eq_refl (or_introl eq_refl) eq_refl).
Defined.
